(** * The key store of pyoidc: [src/oic/utils/keyio.py]

    A shallow embedding of the classes [Key] (with [RSA_key], [EC_key] and
    [HMAC_key]), [KeyBundle] and [KeyJar], followed by the properties of the
    key-store specification, each settled against the embedding, and by
    properties of the functions that the specification passes over.

    Conventions of the embedding.
    - Python values that the attributes of a key may hold are the type [Val]:
      a string, [None], or an M2Crypto RSA object.  An object carries its
      identity, because Python compares such objects by identity.
    - A method that mutates [self] is a function from the object (and the
      world it acts on) to a result and the mutated object.  An exception
      does not roll the mutation back, so the state is returned with it.
    - [KeyBundle] objects are shared by reference between the lists of a
      [KeyJar]; the jar therefore refers to bundles by location in a store.
    - Everything outside the module (the HTTP client, the file system, the
      M2Crypto and jwkest conversions) is an interface, the class
      [External]; a property holds for every implementation of it.
    - [time.time()] is read off a clock of integer ticks. *)

From stdpp Require Import gmap strings list fin_maps.
From Stdlib Require Import ZArith Ascii String.

Open Scope string_scope.
Open Scope list_scope.

(** ** Python strings *)

Module Str.

(** [c.lower()] on one ASCII character. *)
Definition lower_ascii (c : ascii) : ascii :=
  let n := N_of_ascii c in
  if ((65 <=? n) && (n <=? 90))%N then ascii_of_N (n + 32) else c.

(** [s.lower()] *)
Fixpoint lower (s : string) : string :=
  match s with
  | EmptyString => EmptyString
  | String c r => String (lower_ascii c) (lower r)
  end.

(** [s.startswith(p)] *)
Definition startswith (s p : string) : bool := String.prefix p s.

(** [s.endswith(suf)] *)
Fixpoint endswith (s suf : string) : bool :=
  String.eqb s suf ||
  match s with
  | EmptyString => false
  | String _ r => endswith r suf
  end.

(** [sub in s] *)
Fixpoint contains (s sub : string) : bool :=
  String.prefix sub s ||
  match s with
  | EmptyString => false
  | String _ r => contains r sub
  end.

(** [s[:-1]] *)
Fixpoint drop_last (s : string) : string :=
  match s with
  | EmptyString => EmptyString
  | String c r =>
      match r with
      | EmptyString => EmptyString
      | String _ _ => String c (drop_last r)
      end
  end.

(** [s[k:]] *)
Fixpoint drop (k : nat) (s : string) : string :=
  match k, s with
  | O, _ => s
  | S k', String _ r => drop k' r
  | S _, EmptyString => EmptyString
  end.

End Str.

(** ** Python values, exceptions and results *)

(** What an attribute of a key, or a member of a JWK dictionary, holds.
    [VObj id n e] is an [M2Crypto.RSA.RSA] object: [id] is its identity and
    [n], [e] are its attributes of the same name (MPI encoded). *)
Inductive Val :=
  | VStr (s : string)
  | VNone
  | VObj (id : positive) (n e : string).

#[global] Instance Val_eq_dec : EqDecision Val.
Proof. solve_decision. Defined.

(** Truth value of [if v:]. *)
Definition truthy (v : Val) : bool :=
  match v with
  | VStr s => negb (String.eqb s "")
  | VNone => false
  | VObj _ _ _ => true
  end.

(** [a == b]: strings by value, objects by identity. *)
Definition py_eq (a b : Val) : bool := bool_decide (a = b).

(** The exceptions raised.  [NoSuchObject] is not Python's: it is what the
    embedding answers when a reference points outside the object store,
    which does not happen in a jar built by the methods (see [wf]). *)
Inductive Exn :=
  | KeyError
  | TypeError
  | AttributeError
  | ValueError
  | IOError
  | RequestException
  | Exception
  | NoSuchObject.

#[global] Instance Exn_eq_dec : EqDecision Exn.
Proof. solve_decision. Defined.

Inductive Result (A : Type) :=
  | Ok (a : A)
  | Raise (e : Exn).
Arguments Ok {A} a.
Arguments Raise {A} e.

Definition is_ok {A} (r : Result A) : bool :=
  match r with Ok _ => true | Raise _ => false end.

(** A JWK description: the dictionary passed as [**inst]. *)
Abbreviation Jwk := (gmap string Val).

(** ** The world outside *)

(** One call [request("GET", url, allow_redirects=True, verify=..,
    timeout=5.0, headers={"If-None-Match": ..})]. *)
Record Request := {
  req_url : option string;
  req_verify : bool;
  req_if_none_match : option string
}.

#[global] Instance Request_eq_dec : EqDecision Request.
Proof. solve_decision. Defined.

(** What [do_remote] reads off a response [r]: [r.status_code],
    [json.loads(r.text)["keys"]] (which may raise), [r.headers["Etag"]] and
    [r.headers["Cache-Control"]] ([None] when the header is absent). *)
Record Response := {
  status_code : Z;
  body_keys : Result (list Jwk);
  hdr_etag : option string;
  hdr_cache_control : option string
}.

(** The clock read by [time.time()] and the requests sent so far. *)
Record World := {
  clock : Z;
  sent : list Request
}.

Definition set_clock (t : Z) (w : World) : World :=
  {| clock := t; sent := sent w |}.

(** The collaborators of the module.
    - [new_pub_key e n] is
      [M2Crypto.RSA.new_pub_key((long_to_mpi(base64_to_long(str(e))),
      long_to_mpi(base64_to_long(str(n)))))];
    - [mpi_to_base64 m] is [long_to_base64(mpi_to_long(m))];
    - [rsa_load filename] is [M2Crypto.RSA.load_key(filename, ..)];
    - [read_jwks filename] is [json.loads(open(filename).read())["keys"]];
    - [request history req] answers the request [req] sent after the
      requests [history]: the ticks that pass until the call returns, and
      the response or the exception that the call raises. *)
Class External := {
  new_pub_key : Val -> Val -> Result Val;
  mpi_to_base64 : string -> string;
  rsa_load : string -> Result Val;
  read_jwks : string -> Result (list Jwk);
  request : list Request -> Request -> Z * Result Response
}.

#[global] Instance Result_ret : MRet Result := fun A a => Ok a.
#[global] Instance Result_bind : MBind Result := fun A B f r =>
  match r with Ok a => f a | Raise e => Raise e end.

(** ** The class [Key] and its subclasses *)

Module Key.

(** The attributes set by [Key.__init__].  [kty] is the result of
    [kty.lower()], hence a string. *)
Record Base := {
  key : Val;
  kty : string;
  alg : Val;
  use : Val;
  kid : Val
}.

(** An instance of [RSA_key], [EC_key] or [HMAC_key] with the attributes
    that the class adds. *)
Inductive t :=
  | RSA_key (b : Base) (n e : Val)
  | EC_key (b : Base) (crv x y : Val)
  | HMAC_key (b : Base).

Definition base (k : t) : Base :=
  match k with
  | RSA_key b _ _ => b
  | EC_key b _ _ _ => b
  | HMAC_key b => b
  end.

Definition with_base (f : Base -> Base) (k : t) : t :=
  match k with
  | RSA_key b n e => RSA_key (f b) n e
  | EC_key b crv x y => EC_key (f b) crv x y
  | HMAC_key b => HMAC_key (f b)
  end.

(** [k.key = v] and [k.use = v] *)
Definition set_key (v : Val) (k : t) : t :=
  with_base (fun b => {| key := v; kty := kty b; alg := alg b; use := use b;
                         kid := kid b |}) k.

Definition set_use (v : Val) (k : t) : t :=
  with_base (fun b => {| key := key b; kty := kty b; alg := alg b; use := v;
                         kid := kid b |}) k.

(** The class attribute [members]. *)
Definition members (k : t) : list string :=
  match k with
  | RSA_key _ _ _ => ["kty"; "alg"; "use"; "kid"; "n"; "e"]
  | EC_key _ _ _ _ => ["kty"; "alg"; "use"; "kid"; "crv"; "x"; "y"]
  | HMAC_key _ => ["kty"; "alg"; "use"; "kid"]
  end.

(** [getattr(self, name)]; [None] stands for [AttributeError]. *)
Definition getattr (k : t) (name : string) : option Val :=
  if String.eqb name "key" then Some (key (base k))
  else if String.eqb name "kty" then Some (VStr (kty (base k)))
  else if String.eqb name "alg" then Some (alg (base k))
  else if String.eqb name "use" then Some (use (base k))
  else if String.eqb name "kid" then Some (kid (base k))
  else
    match k with
    | RSA_key _ n e =>
        if String.eqb name "n" then Some n
        else if String.eqb name "e" then Some e
        else None
    | EC_key _ crv x y =>
        if String.eqb name "crv" then Some crv
        else if String.eqb name "x" then Some x
        else if String.eqb name "y" then Some y
        else None
    | HMAC_key _ => None
    end.

(** [Key.to_dict]: the truthy attributes among [members].  Every member is
    an attribute of its class (lemma [getattr_members]), so [getattr] does
    not fail in the loop. *)
Definition to_dict (k : t) : Jwk :=
  foldl
    (fun res name =>
       match getattr k name with
       | Some _val => if truthy _val then <[name:=_val]> res else res
       | None => res
       end)
    ∅ (members k).

(** [Key.__init__(self, kty, alg, use, kid, key)]; [kty.lower()] needs a
    string. *)
Definition init (kty alg use kid key : Val) : Result Base :=
  match kty with
  | VStr s => Ok {| key := key; kty := Str.lower s; alg := alg; use := use;
                    kid := kid |}
  | _ => Raise AttributeError
  end.

(** A keyword argument of [**inst], or the default of the parameter. *)
Definition kwarg (inst : Jwk) (name : string) (dflt : Val) : Val :=
  default dflt (inst !! name).

(** Calling a constructor with [**inst] raises [TypeError] when [inst] has a
    key that is not a parameter. *)
Definition accepts (params : list string) (inst : Jwk) : bool :=
  bool_decide (map_Forall (fun name _ => name ∈ params) inst).

(** [RSA_key( **inst)], with
    [__init__(self, kty="rsa", alg="", use="", kid="", n="", e="", key="")]. *)
Definition RSA_key_init (inst : Jwk) : Result t :=
  if accepts ["kty"; "alg"; "use"; "kid"; "n"; "e"; "key"] inst then
    b ← init (kwarg inst "kty" (VStr "rsa")) (kwarg inst "alg" (VStr ""))
             (kwarg inst "use" (VStr "")) (kwarg inst "kid" (VStr ""))
             (kwarg inst "key" (VStr ""));
    Ok (RSA_key b (kwarg inst "n" (VStr "")) (kwarg inst "e" (VStr "")))
  else Raise TypeError.

(** [EC_key( **inst)], with [__init__(self, kty="rsa", alg="", use="",
    kid="", crv="", x="", y="", key="")]: the default of [kty] is "rsa"
    here too. *)
Definition EC_key_init (inst : Jwk) : Result t :=
  if accepts ["kty"; "alg"; "use"; "kid"; "crv"; "x"; "y"; "key"] inst then
    b ← init (kwarg inst "kty" (VStr "rsa")) (kwarg inst "alg" (VStr ""))
             (kwarg inst "use" (VStr "")) (kwarg inst "kid" (VStr ""))
             (kwarg inst "key" (VStr ""));
    Ok (EC_key b (kwarg inst "crv" (VStr "")) (kwarg inst "x" (VStr ""))
          (kwarg inst "y" (VStr "")))
  else Raise TypeError.

(** [HMAC_key( **inst)]: the class inherits
    [Key.__init__(self, kty="", alg="", use="", kid="", key="")]. *)
Definition HMAC_key_init (inst : Jwk) : Result t :=
  if accepts ["kty"; "alg"; "use"; "kid"; "key"] inst then
    b ← init (kwarg inst "kty" (VStr "")) (kwarg inst "alg" (VStr ""))
             (kwarg inst "use" (VStr "")) (kwarg inst "kid" (VStr ""))
             (kwarg inst "key" (VStr ""));
    Ok (HMAC_key b)
  else Raise TypeError.

(** The table [K2C]; [None] stands for the [KeyError] of [K2C[typ]]. *)
Definition K2C (typ : string) : option (Jwk -> Result t) :=
  if String.eqb typ "rsa" then Some RSA_key_init
  else if String.eqb typ "ec" then Some EC_key_init
  else if String.eqb typ "hmac" then Some HMAC_key_init
  else None.

Section Crypto.
Context `{External}.

(** [RSA_key.comp]; [Key.comp] does nothing. *)
Definition comp (k : t) : Result t :=
  match k with
  | RSA_key b n e =>
      m ← new_pub_key e n;
      Ok (set_key m k)
  | _ => Ok k
  end.

(** [RSA_key.decomp] reads [self.key.n] and [self.key.e], which only an
    RSA object has; [Key.decomp] does nothing. *)
Definition decomp (k : t) : Result t :=
  match k with
  | RSA_key b _ _ =>
      match key b with
      | VObj _ kn ke =>
          Ok (RSA_key b (VStr (mpi_to_base64 kn)) (VStr (mpi_to_base64 ke)))
      | _ => Raise AttributeError
      end
  | _ => Ok k
  end.

(** [RSA_key.dc]; [Key.dc] does nothing. *)
Definition dc (k : t) : Result t :=
  match k with
  | RSA_key b n e =>
      if truthy (key b) then decomp k
      else if truthy n && truthy e then comp k
      else Ok k
  | _ => Ok k
  end.

(** The body of the loop of [KeyBundle.do_keys]:
    [typ = inst["kty"].lower(); _key = K2C[typ]( **inst); _key.dc()]. *)
Definition from_jwk (inst : Jwk) : Result t :=
  match inst !! "kty" with
  | None => Raise KeyError
  | Some (VStr s) =>
      match K2C (Str.lower s) with
      | None => Raise KeyError
      | Some cls => _key ← cls inst; dc _key
      end
  | Some _ => Raise AttributeError
  end.

End Crypto.

End Key.

(** ** Methods as state transformers *)

(** A method acting on a state [S]: it returns or raises, and leaves a
    state behind in both cases. *)
Definition M (S A : Type) : Type := S -> Result A * S.

#[global] Instance M_ret {S} : MRet (M S) := fun A a s => (Ok a, s).
#[global] Instance M_bind {S} : MBind (M S) := fun A B f m s =>
  match m s with
  | (Ok a, s') => f a s'
  | (Raise e, s') => (Raise e, s')
  end.

Definition raise {S A} (e : Exn) : M S A := fun s => (Raise e, s).

(** The value of an expression that may raise. *)
Definition lift {S A} (r : Result A) : M S A := fun s => (r, s).

Definition gets {S A} (f : S -> A) : M S A := fun s => (Ok (f s), s).

Definition modify {S} (f : S -> S) : M S unit := fun s => (Ok tt, f s).

(** [try: m except KeyError: handler] *)
Definition except_KeyError {S A} (m handler : M S A) : M S A := fun s =>
  match m s with
  | (Raise KeyError, s') => handler s'
  | other => other
  end.

(** A loop [for x in l: acc = body(acc, x)] over a list that the body does
    not change, [acc] standing for the local variables the loop updates. *)
Fixpoint fold_each {S A B} (l : list A) (body : B -> A -> M S B) (acc : B)
    : M S B :=
  match l with
  | [] => mret acc
  | x :: rest => acc' ← body acc x; fold_each rest body acc'
  end.

(** [for x in l: body(x)] over a list that the body does not change. *)
Fixpoint for_each {S A} (l : list A) (body : A -> M S unit) : M S unit :=
  match l with
  | [] => mret tt
  | x :: rest => body x;; for_each rest body
  end.

(** A method of an object run in a state that holds the object first. *)
Definition on_self {S W A} (m : M S A) : M (S * W) A := fun s =>
  let (r, self) := m (fst s) in (r, (self, snd s)).

(** [time.time()] *)
Definition time {S} : M (S * World) Z := gets (fun s => clock (snd s)).

(** ** The class [KeyBundle] *)

Module KeyBundle.

Record t := {
  _keys : list Key.t;
  remote : bool;
  verify_ssl : bool;
  cache_time : Z;
  time_out : Z;
  etag : string;
  cache_control : option string;
  source : option string;
  fileformat : string;
  keytype : string;
  keyusage : option (list string)
}.

Definition set__keys (v : list Key.t) (b : t) : t :=
  {| _keys := v; remote := remote b; verify_ssl := verify_ssl b;
     cache_time := cache_time b; time_out := time_out b; etag := etag b;
     cache_control := cache_control b; source := source b;
     fileformat := fileformat b; keytype := keytype b;
     keyusage := keyusage b |}.

Definition set_time_out (v : Z) (b : t) : t :=
  {| _keys := _keys b; remote := remote b; verify_ssl := verify_ssl b;
     cache_time := cache_time b; time_out := v; etag := etag b;
     cache_control := cache_control b; source := source b;
     fileformat := fileformat b; keytype := keytype b;
     keyusage := keyusage b |}.

Definition set_etag (v : string) (b : t) : t :=
  {| _keys := _keys b; remote := remote b; verify_ssl := verify_ssl b;
     cache_time := cache_time b; time_out := time_out b; etag := v;
     cache_control := cache_control b; source := source b;
     fileformat := fileformat b; keytype := keytype b;
     keyusage := keyusage b |}.

Definition set_cache_control (v : option string) (b : t) : t :=
  {| _keys := _keys b; remote := remote b; verify_ssl := verify_ssl b;
     cache_time := cache_time b; time_out := time_out b; etag := etag b;
     cache_control := v; source := source b;
     fileformat := fileformat b; keytype := keytype b;
     keyusage := keyusage b |}.

Definition set_source (v : option string) (is_remote : bool) (b : t) : t :=
  {| _keys := _keys b; remote := is_remote; verify_ssl := verify_ssl b;
     cache_time := cache_time b; time_out := time_out b; etag := etag b;
     cache_control := cache_control b; source := v;
     fileformat := fileformat b; keytype := keytype b;
     keyusage := keyusage b |}.

(** [self._keys.append(key)] *)
Definition append (key : Key.t) : M t unit :=
  modify (fun self => set__keys (_keys self ++ [key]) self).

(** [self._keys is not []]: the identity of [self._keys] is compared with
    that of a list allocated for the comparison, which is no other object;
    the test is true whatever the list holds. *)
Definition is_not_new_list (l : list Key.t) : bool := true.

(** The dictionary [args] of [do_remote], with the header [If-None-Match]
    when [self.etag] is set. *)
Definition args (self : t) : Request :=
  {| req_url := source self;
     req_verify := verify_ssl self;
     req_if_none_match :=
       if String.eqb (etag self) "" then None else Some (etag self) |}.

Section Methods.
Context `{External}.

Fixpoint do_keys (keys : list Jwk) : M t unit :=
  match keys with
  | [] => mret tt
  | inst :: rest =>
      _key ← lift (Key.from_jwk inst);
      append _key;;
      do_keys rest
  end.

Definition do_local_jwk (filename : string) : M t unit :=
  keys ← lift (read_jwks filename);
  do_keys keys.

Definition do_local_der (filename keytype : string)
    (keyusage : option (list string)) : M t unit :=
  _bkey ← lift (if String.eqb keytype "rsa" then rsa_load filename
                else Ok VNone);
  let keyusage :=
    match keyusage with
    | None | Some [] => ["enc"; "sig"]
    | Some l => l
    end in
  for_each keyusage (fun use =>
    cls ← lift (match Key.K2C keytype with
                | Some c => Ok c
                | None => Raise KeyError
                end);
    _key ← lift (cls ∅);
    _key ← lift (Key.decomp (Key.set_key _bkey _key));
    append (Key.set_use (VStr use) _key)).

(** [request("GET", self.source, **args)]: the request is recorded, the
    clock advances by the time the call takes, and a transport failure is
    raised. *)
Definition http_get (req : Request) : M (t * World) Response := fun s =>
  let w := snd s in
  let (ticks, r) := request (sent w) req in
  (r, (fst s, {| clock := (clock w + ticks)%Z; sent := sent w ++ [req] |})).

Definition do_remote : M (t * World) unit :=
  self ← gets fst;
  r ← http_get (args self);
  if (status_code r =? 304)%Z then
    now ← time;
    on_self (modify (set_time_out (now + cache_time self)%Z))
  else if (status_code r =? 200)%Z then
    now ← time;
    on_self (modify (set_time_out (now + cache_time self)%Z));;
    keys ← lift (body_keys r);
    on_self (do_keys keys);;
    match hdr_etag r with
    | Some v => on_self (modify (set_etag v))
    | None => mret tt
    end;;
    match hdr_cache_control r with
    | Some v => on_self (modify (set_cache_control (Some v)))
    | None => mret tt
    end
  else mret tt.

Definition update : M (t * World) unit :=
  self ← gets fst;
  match source self with
  | Some src =>
      if String.eqb src "" then mret tt
      else
        on_self (modify (set__keys []));;
        if negb (remote self) then
          if String.eqb (fileformat self) "jwk" then
            on_self (do_local_jwk src)
          else if String.eqb (fileformat self) "der" then
            on_self (do_local_der src (keytype self) (keyusage self))
          else mret tt
        else do_remote
  | None => mret tt
  end.

Definition _uptodate : M (t * World) unit :=
  self ← gets fst;
  if is_not_new_list (_keys self) then
    if remote self then
      now ← time;
      if (time_out self <? now)%Z then update else mret tt
    else mret tt
  else if remote self then update
  else mret tt.

Definition get (typ : string) : M (t * World) (list Key.t) :=
  _uptodate;;
  self ← gets fst;
  if String.eqb typ "" then mret (_keys self)
  else
    let typ := Str.lower typ in
    mret (filter (fun k => Key.kty (Key.base k) = typ) (_keys self)).

Definition keys : M (t * World) (list Key.t) :=
  _uptodate;;
  gets (fun s => _keys (fst s)).

(** [KeyBundle.__init__]; [keys] is the list of JWK descriptions (a single
    dictionary is wrapped in a list by the constructor), empty when the
    argument is left out. *)
Definition __init__ (keys : list Jwk) (source : string) (cache_time : Z)
    (verify_ssl : bool) (fileformat keytype : string)
    (keyusage : option (list string)) : Result t :=
  let self :=
    {| _keys := []; remote := false; verify_ssl := verify_ssl;
       cache_time := cache_time; time_out := 0; etag := "";
       cache_control := None; source := None;
       fileformat := Str.lower fileformat; keytype := Str.lower keytype;
       keyusage := keyusage |} in
  let built (r : Result unit * t) : Result t := fst r;; Ok (snd r) in
  match keys with
  | _ :: _ => built (do_keys keys self)
  | [] =>
      if Str.startswith source "file://" then
        let filename := Str.drop 7 source in
        let self := set_source (Some filename) false self in
        if String.eqb (KeyBundle.fileformat self) "jwk" then
          built (do_local_jwk filename self)
        else if String.eqb (KeyBundle.fileformat self) "der" then
          built (do_local_der filename (KeyBundle.keytype self)
                   (KeyBundle.keyusage self) self)
        else Ok self
      else if Str.startswith source "http://"
              || Str.startswith source "https://" then
        Ok (set_source (Some source) true self)
      else if String.eqb source "" then Ok self
      else Raise Exception
  end.

End Methods.

(** [KeyBundle.remove(typ, val)]; [val] is [None] when left out. *)
Definition remove (typ : string) (val : Val) : M t unit :=
  let typ := Str.lower typ in
  if truthy val then
    modify (fun self =>
      set__keys
        (filter (fun k => ¬ (Key.kty (Key.base k) = typ
                             ∧ Key.key (Key.base k) = val)) (_keys self))
        self)
  else
    modify (fun self =>
      set__keys
        (filter (fun k => ¬ (Key.kty (Key.base k) = typ)) (_keys self)) self).

End KeyBundle.

(** ** The class [KeyJar] *)

Module KeyJar.

(** A jar in its surroundings: the dictionary [self.issuer_keys], whose
    lists hold references to [KeyBundle] objects, the store of those
    objects, and the world.  ([self.spec2key] and [self.ca_certs] are set by
    the constructor and read by no method.) *)
Record Sys := {
  issuer_keys : gmap string (list nat);
  store : list KeyBundle.t;
  world : World
}.

(** [KeyJar.__init__] *)
Definition __init__ (w : World) : Sys :=
  {| issuer_keys := ∅; store := []; world := w |}.

Definition set_issuer_keys (d : gmap string (list nat)) (s : Sys) : Sys :=
  {| issuer_keys := d; store := store s; world := world s |}.

(** [self.issuer_keys[issuer]] *)
Definition getitem (issuer : string) : M Sys (list nat) := fun s =>
  match issuer_keys s !! issuer with
  | Some v => (Ok v, s)
  | None => (Raise KeyError, s)
  end.

(** [self.issuer_keys[issuer] = val] *)
Definition setitem (issuer : string) (val : list nat) : M Sys unit :=
  modify (fun s => set_issuer_keys (<[issuer:=val]> (issuer_keys s)) s).

(** [KeyJar.__contains__] *)
Definition __contains__ (item : string) (s : Sys) : bool :=
  bool_decide (item ∈ dom (issuer_keys s)).

(** A new object enters the store; the result is the reference to it. *)
Definition alloc (kb : KeyBundle.t) : M Sys nat := fun s =>
  (Ok (List.length (store s)),
   {| issuer_keys := issuer_keys s; store := store s ++ [kb];
      world := world s |}).

(** A method of the bundle that [kb] refers to. *)
Definition at_bundle {A} (kb : nat) (m : M (KeyBundle.t * World) A)
    : M Sys A := fun s =>
  match store s !! kb with
  | Some b =>
      let (r, bw) := m (b, world s) in
      (r, {| issuer_keys := issuer_keys s;
             store := <[kb:=fst bw]> (store s);
             world := snd bw |})
  | None => (Raise NoSuchObject, s)
  end.

(** [l.remove(x)] for an [x] that occurs in [l]: the first occurrence
    goes. *)
Fixpoint list_remove_first (x : nat) (l : list nat) : list nat :=
  match l with
  | [] => []
  | y :: r => if bool_decide (y = x) then r else y :: list_remove_first x r
  end.

Section Methods.
Context `{External}.

(** [KeyBundle(source=url, verify_ssl=..)]; the other parameters take their
    defaults. *)
Definition KeyBundle_of_source (url : string) (verify_ssl : bool)
    : Result KeyBundle.t :=
  KeyBundle.__init__ [] url 300 verify_ssl "jwk" "rsa" None.

(** [KeyBundle(keys)]; the other parameters take their defaults. *)
Definition KeyBundle_of_keys (keys : list Jwk) : Result KeyBundle.t :=
  KeyBundle.__init__ keys "" 300 true "jwk" "rsa" None.

(** [try: self.issuer_keys[issuer].append(kb)]
    [except KeyError: self.issuer_keys[issuer] = [kb]] *)
Definition add_kb (issuer : string) (kb : nat) : M Sys unit :=
  except_KeyError
    (lst ← getitem issuer; setitem issuer (lst ++ [kb]))
    (setitem issuer [kb]).

Definition add (issuer url : string) : M Sys nat :=
  kc ← lift (if Str.contains url "/localhost:"
                || Str.contains url "/localhost/"
             then KeyBundle_of_source url false
             else KeyBundle_of_source url true);
  kc ← alloc kc;
  add_kb issuer kc;;
  mret kc.

Definition add_hmac (issuer : string) (key : Val) (usage : list string)
    : M Sys unit :=
  d ← gets issuer_keys;
  (if bool_decide (issuer ∈ dom d) then mret tt else setitem issuer []);;
  for_each usage (fun use =>
    lst ← getitem "";
    kb ← lift (KeyBundle_of_keys
                 [ <["kty":=VStr "hmac"]>
                     (<["key":=key]> (<["use":=VStr use]> ∅)) ]);
    kb ← alloc kb;
    setitem "" (lst ++ [kb])).

(** The first lines of [KeyJar.get]: the usage that keys are tagged with. *)
Definition key_use (use : string) : string :=
  if String.eqb use "dec" then "enc"
  else if String.eqb use "ver" then "sig"
  else use.

(** The lookup of the issuer in [KeyJar.get]. *)
Definition bundles_of (issuer : string) : M Sys (list nat) :=
  if negb (String.eqb issuer "") then
    except_KeyError (getitem issuer)
      (if Str.endswith issuer "/" then
         except_KeyError (getitem (Str.drop_last issuer)) (mret [])
       else
         except_KeyError (getitem (issuer +:+ "/")) (mret []))
  else getitem issuer.

(** [for key in ..: if use == key.use: lst.append(key.key)] *)
Definition collect (use : string) (lst : list Val) (ks : list Key.t)
    : list Val :=
  foldl
    (fun lst key =>
       if py_eq (VStr use) (Key.use (Key.base key))
       then lst ++ [Key.key (Key.base key)]
       else lst)
    lst ks.

(** [for key in ..: if use == key.use:]
    [try: res[key.kty].append(key.key) except KeyError: res[key.kty] = [key.key]] *)
Definition collect_by_kty (use : string) (res : gmap string (list Val))
    (ks : list Key.t) : gmap string (list Val) :=
  foldl
    (fun res key =>
       if py_eq (VStr use) (Key.use (Key.base key)) then
         match res !! Key.kty (Key.base key) with
         | Some l =>
             <[Key.kty (Key.base key) := l ++ [Key.key (Key.base key)]]> res
         | None =>
             <[Key.kty (Key.base key) := [Key.key (Key.base key)]]> res
         end
       else res)
    res ks.

Definition get (use key_type issuer : string)
    : M Sys (gmap string (list Val)) :=
  let use := key_use use in
  _keys ← bundles_of issuer;
  match _keys with
  | [] => mret ∅
  | _ :: _ =>
      if negb (String.eqb key_type "") then
        lst ← fold_each _keys
                (fun lst bundles =>
                   ks ← at_bundle bundles (KeyBundle.get key_type);
                   mret (collect use lst ks))
                [];
        mret {[ key_type := lst ]}
      else
        fold_each _keys
          (fun res bundles =>
             ks ← at_bundle bundles KeyBundle.keys;
             mret (collect_by_kty use res ks))
          ∅
  end.

Definition get_signing_key (key_type owner : string) := get "sig" key_type owner.
Definition get_verify_key (key_type owner : string) := get "ver" key_type owner.
Definition get_encrypt_key (key_type owner : string) := get "enc" key_type owner.
Definition get_decrypt_key (key_type owner : string) := get "dec" key_type owner.

(** [getattr(self, "get_%s_key" % var)]; [None] stands for
    [AttributeError]. *)
Definition getattr_get_key (var : string)
    : option (string -> string -> M Sys (gmap string (list Val))) :=
  if String.eqb var "signing" then Some get_signing_key
  else if String.eqb var "verify" then Some get_verify_key
  else if String.eqb var "encrypt" then Some get_encrypt_key
  else if String.eqb var "decrypt" then Some get_decrypt_key
  else None.

(** The loop of [x_keys] over the items of the own keys. *)
Definition extend_with (keys own : gmap string (list Val))
    : gmap string (list Val) :=
  map_fold
    (fun kty val keys =>
       match val with
       | [] => keys
       | _ :: _ =>
           match keys !! kty with
           | Some l => <[kty := l ++ val]> keys
           | None => <[kty := val]> keys
           end
       end)
    keys own.

Definition x_keys (var part : string) : M Sys (gmap string (list Val)) :=
  match getattr_get_key var with
  | None => raise AttributeError
  | Some _func =>
      keys ← _func "" part;
      own ← _func "" "";
      mret (extend_with keys own)
  end.

Definition verify_keys (part : string) := x_keys "verify" part.

Definition decrypt_keys (part : string) := x_keys "decrypt" part.

End Methods.

(** The loop of [remove_key]: [for kc in kcs] reads [kcs[i]] for
    [i = 0, 1, ..] until [i] is past the end of the list, while the body
    takes bundles out of that same list.  [fuel] bounds the iterations;
    the length of the list at the start is enough
    (lemma [remove_key_loop_fuel]). *)
Fixpoint remove_key_loop (fuel i : nat) (issuer key_type : string)
    (key : Val) : M Sys unit :=
  match fuel with
  | O => mret tt
  | S fuel' =>
      kcs ← getitem issuer;
      match kcs !! i with
      | None => mret tt
      | Some kc =>
          at_bundle kc (on_self (KeyBundle.remove key_type key));;
          ks ← at_bundle kc (gets (fun s => KeyBundle._keys (fst s)));
          (if Nat.eqb (List.length ks) 0
           then setitem issuer (list_remove_first kc kcs)
           else mret tt);;
          remove_key_loop fuel' (S i) issuer key_type key
      end
  end.

Definition remove_key (issuer key_type : string) (key : Val) : M Sys unit :=
  found ← except_KeyError (kcs ← getitem issuer; mret (Some kcs)) (mret None);
  match found with
  | None => mret tt
  | Some kcs => remove_key_loop (List.length kcs) 0 issuer key_type key
  end.

(** [KeyJar.update(kj)], [other] being [kj.issuer_keys], whose values are
    lists: for every item, [self.issuer_keys[key].extend(val)], or
    [self.issuer_keys[key] = val] when [self] has no such key.  The
    dictionary is what the call leaves; that a list assigned this way stays
    shared with [kj] is not part of it. *)
Definition update (other : gmap string (list nat)) : M Sys unit :=
  modify (fun s =>
    set_issuer_keys
      (map_fold
         (fun key val d =>
            match d !! key with
            | Some l => <[key := l ++ val]> d
            | None => <[key := val]> d
            end)
         (issuer_keys s) other)
      s).

(** The loop of [KeyJar.match_owner] over [owners], the issuers in the
    order in which [self.issuer_keys.keys()] lists them. *)
Fixpoint match_owner_in (owners : list string) (url : string)
    : Result string :=
  match owners with
  | [] => Raise Exception
  | owner :: rest =>
      if Str.startswith url owner then Ok owner
      else match_owner_in rest url
  end.

(** [owners] is a listing of the keys of [self.issuer_keys]: each key
    once, in an order that the dictionary chooses. *)
Definition lists_issuers (s : Sys) (owners : list string) : Prop :=
  owners ≡ₚ (map_to_list (issuer_keys s)).*1.

Section Loading.
Context `{External}.

(** [KeyJar.load_keys(pcr, issuer, replace)]; [pcr] is the provider
    information, a dictionary of strings.  The [try] covers the lookup of
    "jwks_uri" and the call of [add]. *)
Definition load_keys (pcr : gmap string string) (issuer : string)
    (replace : bool) : M Sys unit :=
  d ← gets issuer_keys;
  (if negb (bool_decide (issuer ∈ dom d)) then setitem issuer []
   else if replace then setitem issuer []
   else mret tt);;
  except_KeyError
    (url ← lift (match pcr !! "jwks_uri" with
                 | Some url => Ok url
                 | None => Raise KeyError
                 end);
     add issuer url;;
     mret tt)
    (mret tt).

End Loading.

End KeyJar.

(** ** Functions of the module *)

(** [key.n] and [key.e], which only an RSA object has. *)
Definition attr_n (key : Val) : Result string :=
  match key with
  | VObj _ n _ => Ok n
  | _ => Raise AttributeError
  end.

Definition attr_e (key : Val) : Result string :=
  match key with
  | VObj _ _ e => Ok e
  | _ => Raise AttributeError
  end.


(** The classes of the values that [key_eq] is given.  Python 2 has two
    classes of strings, [str] and [unicode], both of them [basestring];
    M2Crypto has two classes of RSA objects, [RSA.RSA], which [load_key]
    makes, and its subclass [RSA.RSA_pub], which [new_pub_key] makes. *)
Inductive PyType :=
  | TStr
  | TUnicode
  | TNone
  | TRSA
  | TRSA_pub.

#[global] Instance PyType_eq_dec : EqDecision PyType.
Proof. solve_decision. Defined.







(** The tuple [(key.n, key.e)] *)
Definition rsa_id (key : Val) : Result (string * string) :=
  n ← attr_n key;
  e ← attr_e key;
  Ok (n, e).

(** The first loop of [uniq_ext]: the dictionary [rkeys] of the RSA keys
    of [lst]. *)
Fixpoint uniq_seen (lst : list (string * Val))
    (rkeys : gmap (string * string) Val)
    : Result (gmap (string * string) Val) :=
  match lst with
  | [] => Ok rkeys
  | (typ, key) :: rest =>
      if String.eqb typ "rsa" then
        id ← rsa_id key;
        uniq_seen rest (<[id := key]> rkeys)
      else uniq_seen rest rkeys
  end.

(** The second loop of [uniq_ext], acting on the list [lst]. *)
Fixpoint uniq_add (keys : list (string * Val))
    (rkeys : gmap (string * string) Val) : M (list (string * Val)) unit :=
  match keys with
  | [] => mret tt
  | (typ, item) :: rest =>
      if negb (String.eqb typ "rsa") then
        modify (fun lst => lst ++ [(typ, item)]);;
        uniq_add rest rkeys
      else
        key ← lift (rsa_id item);
        match rkeys !! key with
        | None =>
            modify (fun lst => lst ++ [(typ, item)]);;
            uniq_add rest (<[key := item]> rkeys)
        | Some _ => uniq_add rest rkeys
        end
  end.

(** [uniq_ext(lst, keys)], a method of the list [lst], which it extends in
    place and returns; [keys] is another list. *)
Definition uniq_ext (keys : list (string * Val))
    : M (list (string * Val)) (list (string * Val)) :=
  lst ← gets id;
  rkeys ← lift (uniq_seen lst ∅);
  uniq_add keys rkeys;;
  gets id.

(** The loop [while path.startswith("."): path = path[1:]] of
    [proper_path]. *)
Fixpoint lstrip_dots (path : string) : string :=
  match path with
  | EmptyString => EmptyString
  | String c r => if Ascii.eqb c "." then lstrip_dots r else path
  end.

(** [proper_path(path)] *)
Definition proper_path (path : string) : string :=
  let path :=
    if Str.startswith path "./" then path
    else if Str.startswith path "/" then "." +:+ path
    else if Str.startswith path "." then
      let path := lstrip_dots path in
      if Str.startswith path "/" then "." +:+ path else path
    else "./" +:+ path in
  if Str.endswith path "/" then path else path +:+ "/".

(** * Objects used in examples *)

Module Ex.

(** Collaborators whose HTTP server gives one answer to every request.
    [new_pub_key] builds an object from string arguments, [mpi_to_base64]
    is the identity and no file can be read. *)
Definition server (answer : Z * Result Response) : External :=
  {| new_pub_key := fun e n =>
       match e, n with
       | VStr e', VStr n' => Ok (VObj 1 n' e')
       | _, _ => Raise TypeError
       end;
     mpi_to_base64 := fun m => m;
     rsa_load := fun _ => Raise IOError;
     read_jwks := fun _ => Raise IOError;
     request := fun _ _ => answer |}.

(** The server cannot be reached: [request] raises after 5 ticks. *)
Definition offline : External := server (5%Z, Raise RequestException).

Definition reply (status : Z) (body : list Jwk) : Response :=
  {| status_code := status; body_keys := Ok body; hdr_etag := None;
     hdr_cache_control := None |}.

Definition hmac (secret use kid : string) : Key.t :=
  Key.HMAC_key {| Key.key := VStr secret; Key.kty := "hmac";
                  Key.alg := VStr ""; Key.use := VStr use;
                  Key.kid := VStr kid |}.

Definition secret : Key.t := hmac "secret" "sig" "k1".

Definition rsa : Key.t :=
  Key.RSA_key {| Key.key := VObj 7 "mpi-n" "mpi-e"; Key.kty := "rsa";
                 Key.alg := VStr "RS256"; Key.use := VStr "sig";
                 Key.kid := VStr "" |}
    (VStr "AQAB-n") (VStr "AQAB").

(** A remote bundle that holds one key, fetched with the validator "v1",
    fresh until tick 1000. *)
Definition bundle : KeyBundle.t :=
  {| KeyBundle._keys := [secret]; KeyBundle.remote := true;
     KeyBundle.verify_ssl := true; KeyBundle.cache_time := 300;
     KeyBundle.time_out := 1000; KeyBundle.etag := "v1";
     KeyBundle.cache_control := None;
     KeyBundle.source := Some "https://idp.example/jwks";
     KeyBundle.fileformat := "jwk"; KeyBundle.keytype := "rsa";
     KeyBundle.keyusage := None |}.

(** [KeyBundle()] after [append] of the keys [ks]. *)
Definition in_memory (ks : list Key.t) : KeyBundle.t :=
  {| KeyBundle._keys := ks; KeyBundle.remote := false;
     KeyBundle.verify_ssl := true; KeyBundle.cache_time := 300;
     KeyBundle.time_out := 0; KeyBundle.etag := "";
     KeyBundle.cache_control := None; KeyBundle.source := None;
     KeyBundle.fileformat := "jwk"; KeyBundle.keytype := "rsa";
     KeyBundle.keyusage := None |}.

Definition at_time (t : Z) : World := {| clock := t; sent := [] |}.

Definition jar (d : gmap string (list nat)) (objects : list KeyBundle.t)
    : KeyJar.Sys :=
  {| KeyJar.issuer_keys := d; KeyJar.store := objects;
     KeyJar.world := at_time 0 |}.

End Ex.

(** * The sentences of the specification *)

(** ** Refreshing a bundle *)

(** The world after the request that a refresh of [b] sends. *)
Definition after_request `{External} (b : KeyBundle.t) (w : World) : World :=
  {| clock := (clock w + fst (request (sent w) (KeyBundle.args b)))%Z;
     sent := sent w ++ [KeyBundle.args b] |}.

(** [m] changes the key list of the bundle only. *)
Definition only_keys {A} (m : M KeyBundle.t A) : Prop :=
  forall b, exists ks, snd (m b) = KeyBundle.set__keys ks b.

(** What no refresh changes. *)
Definition same_origin (b b' : KeyBundle.t) : Prop :=
  KeyBundle.remote b' = KeyBundle.remote b ∧
  KeyBundle.source b' = KeyBundle.source b ∧
  KeyBundle.cache_time b' = KeyBundle.cache_time b ∧
  KeyBundle.verify_ssl b' = KeyBundle.verify_ssl b.

(** The refresh of [b] fails: a transport error, or a status other than 200
    and 304. *)
Definition refresh_fails `{External} (b : KeyBundle.t) (w : World) : Prop :=
  match snd (request (sent w) (KeyBundle.args b)) with
  | Raise _ => True
  | Ok r => status_code r <> 200%Z ∧ status_code r <> 304%Z
  end.

(** The fail-open rule as the specification words it: after a failed
    refresh of a stale remote bundle that holds keys, the read accessor
    returns all of them, and keys and expiry are as before. *)
Definition fail_open_at `{External} (b : KeyBundle.t) (w : World) : Prop :=
  KeyBundle.remote b = true -> KeyBundle._keys b <> [] ->
  (KeyBundle.time_out b < clock w)%Z -> refresh_fails b w ->
  let out := KeyBundle.keys (b, w) in
  fst out = Ok (KeyBundle._keys b) ∧
  KeyBundle._keys (fst (snd out)) = KeyBundle._keys b ∧
  KeyBundle.time_out (fst (snd out)) = KeyBundle.time_out b.

(** When the specification wants a fetch: the key list is empty or the
    clock has reached the expiry. *)
Definition fetch_due (b : KeyBundle.t) (w : World) : bool :=
  match KeyBundle._keys b with [] => true | _ :: _ => false end
  || (KeyBundle.time_out b <=? clock w)%Z.

(** The freshness gate as the specification words it: a read of a remote
    bundle sends one request when a fetch is due and none otherwise. *)
Definition freshness_gate_at `{External} (b : KeyBundle.t) (w : World)
    : Prop :=
  KeyBundle.remote b = true ->
  sent (snd (snd (KeyBundle.keys (b, w)))) =
  sent w ++ (if fetch_due b w then [KeyBundle.args b] else []).

(** ** Looking an issuer up *)

(** The issuer with its trailing slash toggled. *)
Definition toggle_slash (issuer : string) : string :=
  if Str.endswith issuer "/" then Str.drop_last issuer else issuer +:+ "/".

(** The unknown-issuer rule as the specification words it. *)
Definition unknown_issuer_empty_at `{External} (s : KeyJar.Sys)
    (use key_type issuer : string) : Prop :=
  KeyJar.issuer_keys s !! issuer = None ->
  KeyJar.issuer_keys s !! toggle_slash issuer = None ->
  fst (KeyJar.get use key_type issuer s) = Ok ∅.

(** The trailing-slash rule as the specification words it: an issuer that
    is missed and found with its slash toggled resolves as the toggled
    issuer does. *)
Definition slash_retry_at `{External} (s : KeyJar.Sys)
    (use key_type issuer : string) : Prop :=
  KeyJar.issuer_keys s !! issuer = None ->
  is_Some (KeyJar.issuer_keys s !! toggle_slash issuer) ->
  KeyJar.get use key_type issuer s =
  KeyJar.get use key_type (toggle_slash issuer) s.

(** ** Removing keys *)

(** [k] is a key that [remove(key_type, key)] takes out. *)
Definition removed_by (key_type : string) (key : Val) (k : Key.t) : Prop :=
  Key.kty (Key.base k) = Str.lower key_type ∧
  (truthy key = true -> Key.key (Key.base k) = key).

(** Pruning as the specification words it: when the only bundle of the
    issuer holds only keys that the removal takes out, the issuer is gone
    from the jar after the removal. *)
Definition pruned_issuer_at (s : KeyJar.Sys) (issuer key_type : string)
    (key : Val) : Prop :=
  forall kc b,
    KeyJar.issuer_keys s !! issuer = Some [kc] ->
    KeyJar.store s !! kc = Some b ->
    Forall (removed_by key_type key) (KeyBundle._keys b) ->
    KeyJar.__contains__ issuer
      (snd (KeyJar.remove_key issuer key_type key s)) = false.

(** ** Keys for verification *)

(** A read of [b] at [w] fetches nothing: [b] is not remote, or the clock
    is not past its expiry. *)
Definition settled (b : KeyBundle.t) (w : World) : Prop :=
  KeyBundle.remote b = false ∨ (clock w <= KeyBundle.time_out b)%Z.

(** [k] is a signing key of the given kind. *)
Definition signing (kind : string) (k : Key.t) : Prop :=
  Key.use (Key.base k) = VStr "sig" ∧ Key.kty (Key.base k) = kind.

Definition material (k : Key.t) : Val := Key.key (Key.base k).

(** The order of the keys for verification as the specification words it:
    with the signing keys [A], [B] of one kind in the bundle of the
    counterpart and the signing key [C] of that kind in the bundle of the
    empty issuer, [verify_keys] returns [A], [B], [C] under the kind. *)
Definition verify_order_at `{External} (s : KeyJar.Sys) (part kind : string)
    : Prop :=
  forall l1 l2 b1 b2 A B C,
    KeyJar.issuer_keys s !! part = Some [l1] ->
    KeyJar.issuer_keys s !! "" = Some [l2] ->
    KeyJar.store s !! l1 = Some b1 -> KeyJar.store s !! l2 = Some b2 ->
    KeyBundle._keys b1 = [A; B] -> KeyBundle._keys b2 = [C] ->
    signing kind A -> signing kind B -> signing kind C ->
    fst (KeyJar.verify_keys part s) =
    Ok {[ kind := [material A; material B; material C] ]}.

(** ** Sources *)

Definition is_http (url : string) : Prop :=
  Str.startswith url "http://" = true ∨ Str.startswith url "https://" = true.

(** ** Serialising a key *)

(** The entry of [K2C] that maps to the class of [k]. *)
Definition kind_of (k : Key.t) : string :=
  match k with
  | Key.RSA_key _ _ _ => "rsa"
  | Key.EC_key _ _ _ _ => "ec"
  | Key.HMAC_key _ => "hmac"
  end.







(** ** References into the store *)

(** Every reference held by the jar points into the store. *)
Definition wf (s : KeyJar.Sys) : Prop :=
  forall issuer l kc,
    KeyJar.issuer_keys s !! issuer = Some l -> kc ∈ l ->
    kc < List.length (KeyJar.store s).

(** [s'] has the entries of [s] and a store of the same length. *)
Definition same_refs (s s' : KeyJar.Sys) : Prop :=
  KeyJar.issuer_keys s' = KeyJar.issuer_keys s ∧
  List.length (KeyJar.store s') = List.length (KeyJar.store s).

(** * Notions for the functions beside the specification *)

(** ** Decoding descriptions *)

(** The parameters of the constructor that [K2C] has for a kind. *)
Definition parameters (kind : string) : list string :=
  if String.eqb kind "rsa" then ["kty"; "alg"; "use"; "kid"; "n"; "e"; "key"]
  else if String.eqb kind "ec" then
    ["kty"; "alg"; "use"; "kid"; "crv"; "x"; "y"; "key"]
  else ["kty"; "alg"; "use"; "kid"; "key"].

(** The keys that a list of descriptions decodes to, or what the first
    description that does not decode raises. *)
Fixpoint decode_all `{External} (keys : list Jwk) : Result (list Key.t) :=
  match keys with
  | [] => Ok []
  | inst :: rest =>
      k ← Key.from_jwk inst;
      ks ← decode_all rest;
      Ok (k :: ks)
  end.

(** ** Bundles *)

(** The bundle after a refresh answered by [r] with status 200 and the
    keys [ks]. *)
Definition refreshed `{External} (b : KeyBundle.t) (w : World) (r : Response)
    (ks : list Key.t) : KeyBundle.t :=
  {| KeyBundle._keys := ks;
     KeyBundle.remote := KeyBundle.remote b;
     KeyBundle.verify_ssl := KeyBundle.verify_ssl b;
     KeyBundle.cache_time := KeyBundle.cache_time b;
     KeyBundle.time_out :=
       (clock (after_request b w) + KeyBundle.cache_time b)%Z;
     KeyBundle.etag := default (KeyBundle.etag b) (hdr_etag r);
     KeyBundle.cache_control :=
       match hdr_cache_control r with
       | Some v => Some v
       | None => KeyBundle.cache_control b
       end;
     KeyBundle.source := KeyBundle.source b;
     KeyBundle.fileformat := KeyBundle.fileformat b;
     KeyBundle.keytype := KeyBundle.keytype b;
     KeyBundle.keyusage := KeyBundle.keyusage b |}.

(** The keys of a kind, which is named in any case. *)
Definition of_kind (typ : string) (ks : list Key.t) : list Key.t :=
  filter (fun k => Key.kty (Key.base k) = Str.lower typ) ks.

(** The key that [do_local_der] makes of an RSA object for one usage. *)
Definition der_key `{External} (bkey : Val) (kn ke use : string) : Key.t :=
  Key.RSA_key {| Key.key := bkey; Key.kty := "rsa"; Key.alg := VStr "";
                 Key.use := VStr use; Key.kid := VStr "" |}
    (VStr (mpi_to_base64 kn)) (VStr (mpi_to_base64 ke)).

(** The bundle that [KeyBundle(source=url, verify_ssl=..)] is for an HTTP
    url. *)
Definition remote_bundle (url : string) (verify_ssl : bool) : KeyBundle.t :=
  {| KeyBundle._keys := []; KeyBundle.remote := true;
     KeyBundle.verify_ssl := verify_ssl; KeyBundle.cache_time := 300;
     KeyBundle.time_out := 0; KeyBundle.etag := "";
     KeyBundle.cache_control := None; KeyBundle.source := Some url;
     KeyBundle.fileformat := "jwk"; KeyBundle.keytype := "rsa";
     KeyBundle.keyusage := None |}.

(** The test of [KeyJar.add] for a url of the local host. *)
Definition local_host (url : string) : bool :=
  Str.contains url "/localhost:" || Str.contains url "/localhost/".

(** ** Jars *)

(** The material of the keys with a usage, in order. *)
Definition with_use (use : string) (ks : list Key.t) : list Val :=
  material <$> filter (fun k => Key.use (Key.base k) = VStr use) ks.

(** The material of the keys with a usage and of a kind, in order. *)
Definition pick (use kind : string) (ks : list Key.t) : list Val :=
  material <$>
    filter (fun k => Key.use (Key.base k) = VStr use
                     ∧ Key.kty (Key.base k) = kind) ks.

(** The keys of the bundles that a list refers to, in order. *)
Definition keys_in (s : KeyJar.Sys) (bl : list nat) : list Key.t :=
  bl ≫= fun kb =>
    match KeyJar.store s !! kb with
    | Some b => KeyBundle._keys b
    | None => []
    end.

(** The bundles that a list refers to are there and need no refresh. *)
Definition all_settled (s : KeyJar.Sys) (bl : list nat) : Prop :=
  Forall (fun kb => exists b, KeyJar.store s !! kb = Some b
                              ∧ settled b (KeyJar.world s)) bl.

(** The entry of a dictionary of lists that has no empty list. *)
Definition some_list (l : list Val) : option (list Val) :=
  match l with
  | [] => None
  | _ :: _ => Some l
  end.

(** The list that [load_keys] leaves to the issuer before it adds. *)
Definition kept (issuer : string) (replace : bool) (s : KeyJar.Sys)
    : list nat :=
  if replace then [] else default [] (KeyJar.issuer_keys s !! issuer).

(** ** Lists of typed keys *)

(** The pair [(n, e)] of an item that is an RSA key. *)
Definition rsa_id_of (item : string * Val) : option (string * string) :=
  if String.eqb item.1 "rsa" then
    match item.2 with
    | VObj _ n e => Some (n, e)
    | _ => None
    end
  else None.

(** The pairs [(n, e)] of the RSA keys of a list, in order. *)
Definition rsa_ids (l : list (string * Val)) : list (string * string) :=
  omap rsa_id_of l.

(** Every item tagged "rsa" holds an RSA object. *)
Definition rsa_objects (l : list (string * Val)) : Prop :=
  Forall (fun item => item.1 = "rsa" -> exists i n e, item.2 = VObj i n e) l.

Definition not_rsa (item : string * Val) : Prop := item.1 <> "rsa".

(** ** More objects for examples *)

Module Local.

(** Collaborators with a file system: every JWK file reads as [jwks] and
    every DER file as [der]; the server cannot be reached. *)
Definition files (jwks : Result (list Jwk)) (der : Result Val) : External :=
  {| new_pub_key := fun e n =>
       match e, n with
       | VStr e', VStr n' => Ok (VObj 1 n' e')
       | _, _ => Raise TypeError
       end;
     mpi_to_base64 := fun m => m;
     rsa_load := fun _ => der;
     read_jwks := fun _ => jwks;
     request := fun _ _ => (5%Z, Raise RequestException) |}.

(** The description of an HMAC key for signing. *)
Definition hmac_jwk (secret : string) : Jwk :=
  <["kty" := VStr "HMAC"]>
    (<["key" := VStr secret]> (<["use" := VStr "sig"]> ∅)).

(** The key that [hmac_jwk] decodes to. *)
Definition hmac_key (secret : string) : Key.t :=
  Key.HMAC_key {| Key.key := VStr secret; Key.kty := "hmac";
                  Key.alg := VStr ""; Key.use := VStr "sig";
                  Key.kid := VStr "" |}.

(** A bundle made of the file "keys.jwk", with the keys [ks]. *)
Definition bundle (ks : list Key.t) : KeyBundle.t :=
  {| KeyBundle._keys := ks; KeyBundle.remote := false;
     KeyBundle.verify_ssl := true; KeyBundle.cache_time := 300;
     KeyBundle.time_out := 0; KeyBundle.etag := "";
     KeyBundle.cache_control := None; KeyBundle.source := Some "keys.jwk";
     KeyBundle.fileformat := "jwk"; KeyBundle.keytype := "rsa";
     KeyBundle.keyusage := None |}.

(** An answer with status 200 whose body cannot be read. *)
Definition garbled : Response :=
  {| status_code := 200; body_keys := Raise ValueError; hdr_etag := None;
     hdr_cache_control := None |}.

(** An answer with status 200, keys, and a validator. *)
Definition fresh_keys (body : list Jwk) : Response :=
  {| status_code := 200; body_keys := Ok body; hdr_etag := Some "v2";
     hdr_cache_control := None |}.

End Local.

(** * Properties *)

(** ** Python strings, on examples *)

Example lower_mixed : Str.lower "RsA-256" = "rsa-256".
Proof. reflexivity. Qed.

Example endswith_slash :
  Str.endswith "https://idp.example/" "/" = true
  /\ Str.endswith "https://idp.example" "/" = false
  /\ Str.endswith "" "/" = false.
Proof. repeat split. Qed.

Example drop_last_slash :
  Str.drop_last "https://idp.example/" = "https://idp.example"
  /\ Str.drop_last "/" = "".
Proof. repeat split. Qed.

Example contains_localhost :
  Str.contains "https://localhost:8080/jwks" "/localhost:" = true
  /\ Str.contains "https://localhost/jwks" "/localhost/" = true
  /\ Str.contains "https://idp.example/jwks" "/localhost/" = false.
Proof. repeat split. Qed.

Example drop_scheme : Str.drop 7 "file:///etc/keys.jwk" = "/etc/keys.jwk".
Proof. reflexivity. Qed.

Example toggle_slash_both :
  toggle_slash "https://idp.example/" = "https://idp.example"
  /\ toggle_slash "https://idp.example" = "https://idp.example/"
  /\ toggle_slash "" = "/" /\ toggle_slash "/" = "".
Proof. repeat split. Qed.

(** ** Running methods *)

(** Unfolds the plumbing of methods. *)
Ltac run :=
  unfold mbind, mret, M_bind, M_ret, Result_bind, Result_ret, gets, modify,
    lift, raise, time, on_self, except_KeyError in *; cbn in *.

Lemma bind_ok {S A B} (m : M S A) (f : A -> M S B) s a s' :
  m s = (Ok a, s') -> (m ≫= f) s = f a s'.
Proof. intros Hm. unfold mbind, M_bind. by rewrite Hm. Qed.

Lemma bind_raise {S A B} (m : M S A) (f : A -> M S B) s e s' :
  m s = (Raise e, s') -> (m ≫= f) s = (Raise e, s').
Proof. intros Hm. unfold mbind, M_bind. by rewrite Hm. Qed.

Lemma bind_ext_on {S A B} (m : M S A) (f g : A -> M S B) s :
  (forall a s', m s = (Ok a, s') -> f a s' = g a s') ->
  (m ≫= f) s = (m ≫= g) s.
Proof.
  intros Hfg. unfold mbind, M_bind.
  destruct (m s) as [[a|e] s'] eqn:Hm; [by apply Hfg|done].
Qed.

(** ** Loading keys *)

Lemma only_keys_ret {A} (a : A) : only_keys (mret a).
Proof. intros b. exists (KeyBundle._keys b). by destruct b. Qed.

Lemma only_keys_lift {A} (r : Result A) : only_keys (lift r).
Proof. intros b. exists (KeyBundle._keys b). by destruct b. Qed.

Lemma only_keys_append k : only_keys (KeyBundle.append k).
Proof. intros b. by eexists. Qed.

Lemma only_keys_bind {A B} (m : M KeyBundle.t A) (f : A -> M KeyBundle.t B) :
  only_keys m -> (forall a, only_keys (f a)) -> only_keys (m ≫= f).
Proof.
  intros Hm Hf b. unfold mbind, M_bind. destruct (Hm b) as [ks Hks].
  destruct (m b) as [[a|e] b1]; cbn in Hks; subst b1.
  - destruct (Hf a (KeyBundle.set__keys ks b)) as [ks' Hks'].
    exists ks'. by rewrite Hks'.
  - by exists ks.
Qed.

Lemma only_keys_for_each {A} (l : list A) (body : A -> M KeyBundle.t unit) :
  (forall x, only_keys (body x)) -> only_keys (for_each l body).
Proof.
  intros Hb. induction l as [|x l IH]; cbn.
  - apply only_keys_ret.
  - apply only_keys_bind; [apply Hb|]. intros _. apply IH.
Qed.

Section Loading.
Context `{External}.

Lemma only_keys_do_keys keys : only_keys (KeyBundle.do_keys keys).
Proof.
  induction keys as [|inst rest IH]; cbn.
  - apply only_keys_ret.
  - apply only_keys_bind; [apply only_keys_lift|]. intros k.
    apply only_keys_bind; [apply only_keys_append|]. intros _. apply IH.
Qed.

Lemma only_keys_do_local_jwk filename : only_keys (KeyBundle.do_local_jwk filename).
Proof.
  apply only_keys_bind; [apply only_keys_lift|]. apply only_keys_do_keys.
Qed.

Lemma only_keys_do_local_der filename keytype keyusage :
  only_keys (KeyBundle.do_local_der filename keytype keyusage).
Proof.
  apply only_keys_bind; [apply only_keys_lift|]. intros _bkey.
  apply only_keys_for_each. intros use.
  apply only_keys_bind; [apply only_keys_lift|]. intros cls.
  apply only_keys_bind; [apply only_keys_lift|]. intros k.
  apply only_keys_bind; [apply only_keys_lift|]. intros k'.
  apply only_keys_append.
Qed.

(** The constructor stores the flag it is given. *)
Lemma init_verify_ssl keys source cache_time verify_ssl fileformat keytype
    keyusage kb :
  KeyBundle.__init__ keys source cache_time verify_ssl fileformat keytype keyusage
  = Ok kb ->
  KeyBundle.verify_ssl kb = verify_ssl.
Proof.
  unfold KeyBundle.__init__.
  assert (Hbuilt : forall (m : M KeyBundle.t unit) b,
            only_keys m ->
            (fst (m b);; Ok (snd (m b))) = Ok kb ->
            KeyBundle.verify_ssl kb = KeyBundle.verify_ssl b).
  { intros m b Hm Hrun. destruct (Hm b) as [ks Hks].
    destruct (m b) as [[[]|e] b1]; cbn in *; [|done].
    injection Hrun as <-. by subst b1. }
  destruct keys as [|inst rest].
  - destruct (Str.startswith source "file://").
    + cbn [KeyBundle.fileformat KeyBundle.set_source].
      destruct (String.eqb _ "jwk").
      * intros Hrun. by apply Hbuilt in Hrun; [|apply only_keys_do_local_jwk].
      * destruct (String.eqb _ "der").
        -- intros Hrun.
           by apply Hbuilt in Hrun; [|apply only_keys_do_local_der].
        -- by intros [= <-].
    + destruct (Str.startswith source "http://" || Str.startswith source "https://");
        [by intros [= <-]|].
      destruct (String.eqb source ""); [by intros [= <-]|done].
  - intros Hrun. by apply Hbuilt in Hrun; [|apply only_keys_do_keys].
Qed.
End Loading.

(** ** Refreshing a bundle *)

Section Refresh.
Context `{External}.

(** A bundle that is not remote, or not stale, is left as it is. *)
Lemma uptodate_fresh b w :
  KeyBundle.remote b = false ∨ (clock w <= KeyBundle.time_out b)%Z ->
  KeyBundle._uptodate (b, w) = (Ok tt, (b, w)).
Proof.
  intros Hf. unfold KeyBundle._uptodate. run.
  destruct (KeyBundle.remote b); [|reflexivity].
  destruct Hf as [Hf|Hf]; [discriminate|].
  cbn. destruct (Z.ltb_spec (KeyBundle.time_out b) (clock w)); [lia|reflexivity].
Qed.

(** A stale remote bundle drops its keys and fetches. *)
Lemma uptodate_stale b w src :
  KeyBundle.remote b = true -> KeyBundle.source b = Some src -> src <> "" ->
  (KeyBundle.time_out b < clock w)%Z ->
  KeyBundle._uptodate (b, w) = KeyBundle.do_remote (KeyBundle.set__keys [] b, w).
Proof.
  intros Hr Hs Hne Hlt. unfold KeyBundle._uptodate. run. rewrite Hr. cbn.
  destruct (Z.ltb_spec (KeyBundle.time_out b) (clock w)); [|lia].
  unfold KeyBundle.update. run. rewrite Hs.
  destruct (String.eqb_spec src ""); [done|].
  rewrite Hr. cbn. reflexivity.
Qed.

Lemma do_remote_raise b w e :
  snd (request (sent w) (KeyBundle.args b)) = Raise e ->
  KeyBundle.do_remote (b, w) = (Raise e, (b, after_request b w)).
Proof.
  intros Hq. unfold KeyBundle.do_remote, after_request, KeyBundle.http_get. run.
  destruct (request (sent w) (KeyBundle.args b)) as [ticks r].
  cbn in *. subst r. reflexivity.
Qed.

Lemma do_remote_other b w r :
  snd (request (sent w) (KeyBundle.args b)) = Ok r ->
  status_code r <> 304%Z -> status_code r <> 200%Z ->
  KeyBundle.do_remote (b, w) = (Ok tt, (b, after_request b w)).
Proof.
  intros Hq H1 H2.
  unfold KeyBundle.do_remote, after_request, KeyBundle.http_get. run.
  destruct (request (sent w) (KeyBundle.args b)) as [ticks r'].
  cbn in *. subst r'.
  destruct (Z.eqb_spec (status_code r) 304); [done|].
  destruct (Z.eqb_spec (status_code r) 200); [done|]. reflexivity.
Qed.

Lemma do_remote_304 b w r :
  snd (request (sent w) (KeyBundle.args b)) = Ok r ->
  status_code r = 304%Z ->
  KeyBundle.do_remote (b, w) =
  (Ok tt,
   (KeyBundle.set_time_out
      (clock (after_request b w) + KeyBundle.cache_time b) b,
    after_request b w)).
Proof.
  intros Hq H1.
  unfold KeyBundle.do_remote, after_request, KeyBundle.http_get. run.
  destruct (request (sent w) (KeyBundle.args b)) as [ticks r'].
  cbn in *. subst r'. rewrite H1. cbn. reflexivity.
Qed.

(** [do_keys] changes the key list only. *)
Lemma do_keys_only_keys keys b :
  exists ks, snd (KeyBundle.do_keys keys b) = KeyBundle.set__keys ks b.
Proof. apply only_keys_do_keys. Qed.

(** Whatever the answer, [do_remote] sends one request. *)
Lemma do_remote_world b w :
  snd (snd (KeyBundle.do_remote (b, w))) = after_request b w.
Proof.
  unfold KeyBundle.do_remote, after_request, KeyBundle.http_get. run.
  destruct (request (sent w) (KeyBundle.args b)) as [ticks [r|e]]; cbn; [|done].
  destruct (status_code r =? 304)%Z; [done|].
  destruct (status_code r =? 200)%Z; [|done].
  destruct (body_keys r) as [keys|e]; cbn; [|done].
  destruct (KeyBundle.do_keys keys _) as [[[]|e] b1]; cbn; [|done].
  destruct (hdr_etag r), (hdr_cache_control r); done.
Qed.

Lemma do_remote_origin b w :
  same_origin b (fst (snd (KeyBundle.do_remote (b, w)))).
Proof.
  unfold KeyBundle.do_remote, after_request, KeyBundle.http_get. run.
  destruct (request (sent w) (KeyBundle.args b)) as [ticks [r|e]]; cbn; [|done].
  destruct (status_code r =? 304)%Z; [done|].
  destruct (status_code r =? 200)%Z; [|done].
  destruct (body_keys r) as [keys|e]; cbn; [|done].
  match goal with |- context [KeyBundle.do_keys keys ?b0] =>
    destruct (do_keys_only_keys keys b0) as [ks Hks];
    destruct (KeyBundle.do_keys keys b0) as [[[]|e] b1] end;
    cbn in *; subst b1; [|done].
  destruct (hdr_etag r), (hdr_cache_control r); done.
Qed.

(** A reply with status 200 sets the expiry, before the keys are read. *)
Lemma do_remote_200_expiry b w r :
  snd (request (sent w) (KeyBundle.args b)) = Ok r ->
  status_code r = 200%Z ->
  KeyBundle.time_out (fst (snd (KeyBundle.do_remote (b, w)))) =
  (clock (after_request b w) + KeyBundle.cache_time b)%Z.
Proof.
  intros Hq Hs.
  unfold KeyBundle.do_remote, after_request, KeyBundle.http_get. run.
  destruct (request (sent w) (KeyBundle.args b)) as [ticks r'].
  cbn in *. subst r'. rewrite Hs. cbn.
  destruct (body_keys r) as [keys|e]; cbn; [|done].
  match goal with |- context [KeyBundle.do_keys keys ?b0] =>
    destruct (do_keys_only_keys keys b0) as [ks Hks];
    destruct (KeyBundle.do_keys keys b0) as [[[]|e] b1] end;
    cbn in *; subst b1; [|done].
  destruct (hdr_etag r), (hdr_cache_control r); done.
Qed.

Lemma get_after_uptodate typ s :
  snd (KeyBundle.get typ s) = snd (KeyBundle._uptodate s).
Proof.
  unfold KeyBundle.get. run.
  destruct (KeyBundle._uptodate s) as [[[]|e] s']; cbn; [|done].
  by destruct (String.eqb typ "").
Qed.

Lemma get_ok_iff typ s :
  is_ok (fst (KeyBundle.get typ s)) = is_ok (fst (KeyBundle._uptodate s)).
Proof.
  unfold KeyBundle.get. run.
  destruct (KeyBundle._uptodate s) as [[[]|e] s']; cbn; [|done].
  by destruct (String.eqb typ "").
Qed.

Lemma uptodate_stale_world b w src :
  KeyBundle.remote b = true -> KeyBundle.source b = Some src -> src <> "" ->
  (KeyBundle.time_out b < clock w)%Z ->
  snd (snd (KeyBundle._uptodate (b, w))) = after_request b w.
Proof.
  intros. rewrite (uptodate_stale b w src) by assumption.
  rewrite do_remote_world. reflexivity.
Qed.

(** A not-modified answer to a stale remote bundle, in general: the keys
    were dropped before the request and the answer brings none. *)
Lemma not_modified_in_general b w src r typ :
  KeyBundle.remote b = true -> KeyBundle.source b = Some src -> src <> "" ->
  (KeyBundle.time_out b < clock w)%Z ->
  snd (request (sent w) (KeyBundle.args b)) = Ok r ->
  status_code r = 304%Z ->
  KeyBundle.get typ (b, w) =
  (Ok [],
   (KeyBundle.set_time_out
      (clock (after_request b w) + KeyBundle.cache_time b)
      (KeyBundle.set__keys [] b),
    after_request b w)).
Proof.
  intros Hr Hs Hne Hlt Hq H304. unfold KeyBundle.get.
  erewrite bind_ok; cycle 1.
  { rewrite (uptodate_stale b w src) by assumption.
    apply (do_remote_304 (KeyBundle.set__keys [] b) w r Hq H304). }
  run. by destruct (String.eqb typ "").
Qed.

(** C1, as amended: when the refresh of a stale remote bundle fails, the
    expiry is left as it was; after a status other than 200 and 304 the
    read accessor returns, and a transport error is raised out of it. *)
Theorem refresh_failure_keeps_expiry (b : KeyBundle.t) (w : World)
    (typ src : string) :
  KeyBundle.remote b = true -> KeyBundle.source b = Some src -> src <> "" ->
  (KeyBundle.time_out b < clock w)%Z -> refresh_fails b w ->
  let out := KeyBundle.get typ (b, w) in
  KeyBundle.time_out (fst (snd out)) = KeyBundle.time_out b ∧
  match snd (request (sent w) (KeyBundle.args b)) with
  | Raise e => fst out = Raise e
  | Ok _ => is_ok (fst out) = true
  end.
Proof.
  intros Hr Hs Hne Hlt Hf out. subst out.
  rewrite get_after_uptodate.
  pose proof (get_ok_iff typ (b, w)) as Hok.
  unfold KeyBundle.get in *. run.
  rewrite (uptodate_stale b w src) in * by assumption.
  unfold refresh_fails in Hf.
  change (KeyBundle.args b)
    with (KeyBundle.args (KeyBundle.set__keys [] b)) in *.
  destruct (snd (request (sent w) (KeyBundle.args (KeyBundle.set__keys [] b))))
    as [r|e] eqn:Hq.
  - destruct Hf as [H200 H304].
    rewrite (do_remote_other _ _ r Hq H304 H200) in *. cbn in *.
    split; [done|]. by destruct (String.eqb typ "").
  - rewrite (do_remote_raise _ _ e Hq) in *. cbn. done.
Qed.

(** C3, as amended: a read of a remote bundle sends one request when the
    clock is past the expiry, and none (the bundle and the world stay as
    they are) when the bundle holds keys and the clock is not past the
    expiry.  After a refresh answered with status 200, the expiry is the
    time of the answer plus [cache_time]: a second read up to then sends
    nothing, a read later sends one request. *)
Theorem freshness_gate (b : KeyBundle.t) (w : World) (typ src : string) :
  KeyBundle.remote b = true -> KeyBundle.source b = Some src -> src <> "" ->
  let out := KeyBundle.get typ (b, w) in
  ((KeyBundle.time_out b < clock w)%Z ->
   sent (snd (snd out)) = sent w ++ [KeyBundle.args b]) ∧
  ((clock w <= KeyBundle.time_out b)%Z -> KeyBundle._keys b <> [] ->
   snd out = (b, w)) ∧
  (forall r, (KeyBundle.time_out b < clock w)%Z ->
     snd (request (sent w) (KeyBundle.args b)) = Ok r ->
     status_code r = 200%Z ->
     let b1 := fst (snd out) in
     let w1 := snd (snd out) in
     let T := KeyBundle.cache_time b in
     forall (t : Z) (typ' : string),
       let w2 := snd (snd (KeyBundle.get typ' (b1, set_clock t w1))) in
       ((t <= clock w1 + T)%Z -> KeyBundle._keys b1 <> [] ->
        sent w2 = sent w1) ∧
       ((clock w1 + T < t)%Z -> sent w2 = sent w1 ++ [KeyBundle.args b1])).
Proof.
  intros Hr Hs Hne out. subst out. rewrite get_after_uptodate.
  split; [|split].
  - intros Hlt. by rewrite (uptodate_stale_world b w src).
  - intros Hle _. rewrite uptodate_fresh; [done|by right].
  - intros r Hlt Hq H200 b1 w1 T t typ' w2. subst w2.
    rewrite get_after_uptodate.
    assert (Hexp : KeyBundle.time_out b1 = (clock w1 + T)%Z).
    { subst b1 w1 T. rewrite (uptodate_stale b w src) by assumption.
      rewrite do_remote_world.
      change (after_request (KeyBundle.set__keys [] b) w)
        with (after_request b w).
      by rewrite (do_remote_200_expiry (KeyBundle.set__keys [] b) w r). }
    assert (Ho : same_origin b b1).
    { subst b1. rewrite (uptodate_stale b w src) by assumption.
      apply (do_remote_origin (KeyBundle.set__keys [] b) w). }
    destruct Ho as (Hr1 & Hs1 & _ & _).
    split.
    + intros Hle _. rewrite uptodate_fresh; [done|right; cbn; lia].
    + intros Hgt.
      rewrite (uptodate_stale_world b1 (set_clock t w1) src);
        [done|congruence|congruence|done|cbn; lia].
Qed.

End Refresh.

Lemma refresh_failure_keeps_expiry_witness :
  let E := Ex.server (5%Z, Ok (Ex.reply 503 [])) in
  let out := KeyBundle.get "" (Ex.bundle, Ex.at_time 2000) in
  KeyBundle.time_out (fst (snd out)) = 1000%Z ∧ is_ok (fst out) = true.
Proof.
  intros E.
  apply (@refresh_failure_keeps_expiry E Ex.bundle (Ex.at_time 2000) ""
           "https://idp.example/jwks");
    [reflexivity|reflexivity|discriminate|reflexivity|].
  split; discriminate.
Defined.

(** C1, as the specification words it, fails when the server cannot be
    reached: the read accessor raises, and the key of the bundle is gone. *)
Lemma fail_open_refuted :
  ~ @fail_open_at Ex.offline Ex.bundle (Ex.at_time 2000).
Proof.
  intros Hc.
  destruct Hc as [Hc _]; [reflexivity|discriminate|reflexivity|exact I|].
  vm_compute in Hc. discriminate.
Qed.

(** C2 at a bundle that holds one key, stale at tick 2000, whose server
    answers 304 after 5 ticks: the expiry moves to 2005 + 300, and the read
    returns no key, because [update] emptied [_keys] before the request. *)
Theorem not_modified_clears_keys :
  @KeyBundle.get (Ex.server (5%Z, Ok (Ex.reply 304 []))) ""
    (Ex.bundle, Ex.at_time 2000) =
  (Ok [],
   (KeyBundle.set_time_out 2305 (KeyBundle.set__keys [] Ex.bundle),
    {| clock := 2005; sent := [KeyBundle.args Ex.bundle] |})).
Proof. vm_compute. reflexivity. Qed.

Lemma freshness_gate_witness :
  let E := Ex.server (5%Z, Ok (Ex.reply 200 [Key.to_dict Ex.secret])) in
  sent (snd (snd (KeyBundle.get "" (Ex.bundle, Ex.at_time 2000)))) =
    [KeyBundle.args Ex.bundle] ∧
  snd (KeyBundle.get "" (Ex.bundle, Ex.at_time 1000)) =
    (Ex.bundle, Ex.at_time 1000).
Proof.
  intros E. split.
  - apply (proj1 (@freshness_gate E Ex.bundle (Ex.at_time 2000) ""
                    "https://idp.example/jwks" eq_refl eq_refl
                    ltac:(discriminate))).
    reflexivity.
  - apply (proj1 (proj2 (@freshness_gate E Ex.bundle (Ex.at_time 1000) ""
                           "https://idp.example/jwks" eq_refl eq_refl
                           ltac:(discriminate)))).
    + discriminate.
    + discriminate.
Defined.

(** C3, as the specification words it, fails at the tick of the expiry:
    the clock has reached the expiry, and no request is sent. *)
Lemma freshness_gate_refuted :
  ~ @freshness_gate_at (Ex.server (5%Z, Ok (Ex.reply 200 []))) Ex.bundle
      (Ex.at_time 1000).
Proof.
  intros Hc. specialize (Hc eq_refl). vm_compute in Hc. discriminate.
Qed.

(** ** Looking an issuer up *)

Section Lookup.
Context `{External}.

(** An issuer that has an entry gets its list, the empty issuer too. *)
Lemma bundles_of_hit s issuer bl :
  KeyJar.issuer_keys s !! issuer = Some bl ->
  KeyJar.bundles_of issuer s = (Ok bl, s).
Proof.
  intros Hm. unfold KeyJar.bundles_of.
  destruct (String.eqb issuer ""); cbn; unfold KeyJar.getitem; run;
    by rewrite Hm.
Qed.

(** An issuer other than the empty one that has no entry gets the list of
    the issuer with the slash toggled, or the empty list. *)
Lemma bundles_of_miss s issuer :
  issuer <> "" ->
  KeyJar.issuer_keys s !! issuer = None ->
  KeyJar.bundles_of issuer s =
  match KeyJar.issuer_keys s !! toggle_slash issuer with
  | Some bl => (Ok bl, s)
  | None => (Ok [], s)
  end.
Proof.
  intros Hne Hm. unfold KeyJar.bundles_of, toggle_slash.
  destruct (String.eqb_spec issuer ""); [done|]. cbn.
  unfold KeyJar.getitem. run. rewrite Hm.
  destruct (Str.endswith issuer "/"); run;
    match goal with |- context [KeyJar.issuer_keys s !! ?k] =>
      destruct (KeyJar.issuer_keys s !! k) end; done.
Qed.

(** The empty issuer is looked up as it is: its list when it has an
    entry, and [KeyError] when it has none, whatever entry "/" has. *)
Lemma bundles_of_self s :
  KeyJar.bundles_of "" s =
  match KeyJar.issuer_keys s !! "" with
  | Some bl => (Ok bl, s)
  | None => (Raise KeyError, s)
  end.
Proof. reflexivity. Qed.

Lemma get_self_missing s use key_type :
  KeyJar.issuer_keys s !! "" = None ->
  KeyJar.get use key_type "" s = (Raise KeyError, s).
Proof.
  intros Hm. unfold KeyJar.get. apply bind_raise.
  by rewrite bundles_of_self, Hm.
Qed.

(** C4, as amended: for an issuer other than the empty one that has no
    entry, with the slash toggled or not, [get] returns the empty
    dictionary and changes nothing; for the empty issuer the list is read
    without a guard, and [get] raises [KeyError] when the jar has no entry
    for it. *)
Theorem unknown_issuer_empty (s : KeyJar.Sys) (use key_type issuer : string) :
  (issuer <> "" ->
   KeyJar.issuer_keys s !! issuer = None ->
   KeyJar.issuer_keys s !! toggle_slash issuer = None ->
   KeyJar.get use key_type issuer s = (Ok ∅, s)) ∧
  (KeyJar.issuer_keys s !! "" = None ->
   KeyJar.get use key_type "" s = (Raise KeyError, s)).
Proof.
  split.
  - intros Hne Hm Ht. unfold KeyJar.get. run.
    rewrite bundles_of_miss by assumption. by rewrite Ht.
  - apply get_self_missing.
Qed.

(** C8, as amended: for an issuer other than the empty one, the entry of
    the issuer itself is used when there is one; when there is none and
    the issuer with the slash toggled has an entry, that entry is used, and
    [get] answers as it does for the toggled issuer.  The empty issuer is
    looked up as it is and there is no second try: its entry is used when
    there is one, and when there is none the lookup raises [KeyError], and
    so does [get], whatever is registered under "/". *)
Theorem slash_retry (s : KeyJar.Sys) (use key_type issuer : string) :
  (issuer <> "" ->
   (forall bl, KeyJar.issuer_keys s !! issuer = Some bl ->
      KeyJar.bundles_of issuer s = (Ok bl, s)) ∧
   (KeyJar.issuer_keys s !! issuer = None ->
    forall bl, KeyJar.issuer_keys s !! toggle_slash issuer = Some bl ->
      KeyJar.bundles_of issuer s = (Ok bl, s) ∧
      KeyJar.get use key_type issuer s =
      KeyJar.get use key_type (toggle_slash issuer) s)) ∧
  ((forall bl, KeyJar.issuer_keys s !! "" = Some bl ->
      KeyJar.bundles_of "" s = (Ok bl, s)) ∧
   (KeyJar.issuer_keys s !! "" = None ->
    KeyJar.bundles_of "" s = (Raise KeyError, s) ∧
    KeyJar.get use key_type "" s = (Raise KeyError, s))).
Proof.
  split.
  - intros Hne. split; [apply bundles_of_hit|].
    intros Hm bl Ht.
    assert (Hb : KeyJar.bundles_of issuer s = (Ok bl, s)).
    { rewrite bundles_of_miss by assumption. by rewrite Ht. }
    split; [done|].
    unfold KeyJar.get. run. by rewrite Hb, (bundles_of_hit _ _ _ Ht).
  - split; [apply bundles_of_hit|].
    intros Hm. split; [by rewrite bundles_of_self, Hm|].
    by apply get_self_missing.
Qed.

End Lookup.

Lemma unknown_issuer_empty_witness :
  let E := Ex.offline in
  let s := Ex.jar {[ "" := [0] ]} [Ex.in_memory [Ex.secret]] in
  let s0 := Ex.jar {[ "https://idp.example" := [0] ]}
              [Ex.in_memory [Ex.secret]] in
  KeyJar.get "sig" "" "https://rp.example" s = (Ok ∅, s) ∧
  KeyJar.get "sig" "" "" s0 = (Raise KeyError, s0).
Proof.
  intros E s s0. split.
  - apply (proj1 (@unknown_issuer_empty E s "sig" "" "https://rp.example"));
      [discriminate|reflexivity|reflexivity].
  - apply (proj2 (@unknown_issuer_empty E s0 "sig" "" "")). reflexivity.
Defined.

(** C4, as the specification words it, fails at the empty issuer: in a jar
    without entries the lookup of the own keys raises [KeyError]. *)
Lemma unknown_self_raises :
  ~ @unknown_issuer_empty_at Ex.offline (KeyJar.__init__ (Ex.at_time 0))
      "sig" "" "".
Proof.
  intros Hc. specialize (Hc eq_refl eq_refl). vm_compute in Hc. discriminate.
Qed.

Lemma slash_retry_witness :
  let E := Ex.offline in
  let s := Ex.jar {[ "https://idp.example/" := [0] ]}
             [Ex.in_memory [Ex.secret]] in
  let s' := Ex.jar {[ "https://idp.example" := [0] ]}
              [Ex.in_memory [Ex.secret]] in
  let s0 := Ex.jar {[ "/" := [0] ]} [Ex.in_memory [Ex.secret]] in
  (KeyJar.bundles_of "https://idp.example" s = (Ok [0], s) ∧
   KeyJar.get "sig" "" "https://idp.example" s =
   KeyJar.get "sig" "" "https://idp.example/" s) ∧
  (KeyJar.bundles_of "https://idp.example/" s' = (Ok [0], s') ∧
   KeyJar.get "sig" "" "https://idp.example/" s' =
   KeyJar.get "sig" "" "https://idp.example" s') ∧
  (KeyJar.bundles_of "" s0 = (Raise KeyError, s0) ∧
   KeyJar.get "sig" "" "" s0 = (Raise KeyError, s0)).
Proof.
  intros E s s' s0. split; [|split].
  - apply (proj2 (proj1 (@slash_retry E s "sig" "" "https://idp.example")
                    ltac:(discriminate)));
      reflexivity.
  - apply (proj2 (proj1 (@slash_retry E s' "sig" "" "https://idp.example/")
                    ltac:(discriminate)));
      reflexivity.
  - apply (proj2 (proj2 (@slash_retry E s0 "sig" "" ""))). reflexivity.
Defined.

(** C8, as the specification words it, fails at the empty issuer: keys
    registered under "/" are not found, the lookup raises [KeyError]. *)
Lemma slash_retry_refuted :
  ~ @slash_retry_at Ex.offline
      (Ex.jar {[ "/" := [0] ]} [Ex.in_memory [Ex.secret]]) "sig" "" "".
Proof.
  intros Hc. specialize (Hc eq_refl (ex_intro _ [0] eq_refl)).
  vm_compute in Hc. discriminate.
Qed.

(** ** Registering keys *)

Lemma prefix_cons a s1 b s2 :
  String.prefix (String a s1) (String b s2) =
  if Ascii.ascii_dec a b then String.prefix s1 s2 else false.
Proof. reflexivity. Qed.

Lemma http_not_file url : is_http url -> Str.startswith url "file://" = false.
Proof.
  unfold is_http, Str.startswith. destruct url as [|c r].
  - intros [?|?]; discriminate.
  - rewrite !prefix_cons.
    destruct (Ascii.ascii_dec "h"%char c) as [<-|Hc]; [reflexivity|].
    intros [?|?]; discriminate.
Qed.

Section Register.
Context `{External}.

(** The constructor makes a remote bundle of an HTTP source, and fetches
    nothing. *)
Lemma init_remote url cache_time verify_ssl fileformat keytype keyusage :
  is_http url ->
  exists kb,
    KeyBundle.__init__ [] url cache_time verify_ssl fileformat keytype keyusage
    = Ok kb ∧
    KeyBundle.remote kb = true ∧ KeyBundle.source kb = Some url ∧
    KeyBundle.verify_ssl kb = verify_ssl ∧ KeyBundle._keys kb = [] ∧
    KeyBundle.time_out kb = 0%Z.
Proof.
  intros Hu. unfold KeyBundle.__init__. rewrite (http_not_file url Hu).
  replace (Str.startswith url "http://" || Str.startswith url "https://")
    with true by (destruct Hu as [-> | ->]; [done|by rewrite orb_true_r]).
  eexists. split; [reflexivity|]. done.
Qed.

Lemma add_kb_appends s issuer kb :
  KeyJar.add_kb issuer kb s =
  (Ok tt,
   KeyJar.set_issuer_keys
     (<[issuer := default [] (KeyJar.issuer_keys s !! issuer) ++ [kb]]>
        (KeyJar.issuer_keys s)) s).
Proof.
  unfold KeyJar.add_kb, KeyJar.getitem, KeyJar.setitem. run.
  by destruct (KeyJar.issuer_keys s !! issuer).
Qed.

(** What [add] does, by the outcome of the constructor. *)
Lemma add_runs issuer url s :
  KeyJar.add issuer url s =
  match (if Str.contains url "/localhost:" || Str.contains url "/localhost/"
         then KeyJar.KeyBundle_of_source url false
         else KeyJar.KeyBundle_of_source url true) with
  | Ok kb =>
      (Ok (List.length (KeyJar.store s)),
       {| KeyJar.issuer_keys :=
            <[issuer := default [] (KeyJar.issuer_keys s !! issuer)
                        ++ [List.length (KeyJar.store s)]]>
              (KeyJar.issuer_keys s);
          KeyJar.store := KeyJar.store s ++ [kb];
          KeyJar.world := KeyJar.world s |})
  | Raise e => (Raise e, s)
  end.
Proof.
  unfold KeyJar.add.
  destruct (if Str.contains url "/localhost:" || Str.contains url "/localhost/"
            then KeyJar.KeyBundle_of_source url false
            else KeyJar.KeyBundle_of_source url true) as [kb|e]; [|done].
  unfold mbind at 1. unfold M_bind at 1. unfold lift at 1. cbv iota beta.
  unfold mbind at 1. unfold M_bind at 1. unfold KeyJar.alloc at 1.
  cbv iota beta.
  unfold mbind at 1. unfold M_bind at 1. rewrite add_kb_appends. reflexivity.
Qed.

(** C10: the bundle that [add] makes, of whatever source, verifies
    certificates unless the URL contains "/localhost:" or "/localhost/";
    and of an HTTP source [add] makes a remote bundle, the last of the
    issuer's list. *)
Theorem add_verify_ssl (s : KeyJar.Sys) (issuer url : string) :
  (forall kc s', KeyJar.add issuer url s = (Ok kc, s') ->
     exists kb,
       KeyJar.store s' !! kc = Some kb ∧
       KeyBundle.verify_ssl kb =
         negb (Str.contains url "/localhost:"
               || Str.contains url "/localhost/")) ∧
  (is_http url ->
   exists kb s',
     KeyJar.add issuer url s = (Ok (List.length (KeyJar.store s)), s') ∧
     KeyJar.store s' = KeyJar.store s ++ [kb] ∧
     KeyJar.issuer_keys s' !! issuer =
       Some (default [] (KeyJar.issuer_keys s !! issuer)
             ++ [List.length (KeyJar.store s)]) ∧
     KeyBundle.remote kb = true ∧ KeyBundle.source kb = Some url ∧
     KeyBundle.verify_ssl kb =
       negb (Str.contains url "/localhost:"
             || Str.contains url "/localhost/")).
Proof.
  rewrite add_runs. unfold KeyJar.KeyBundle_of_source. split.
  - intros kc s'.
    destruct (Str.contains url "/localhost:"
              || Str.contains url "/localhost/");
      match goal with |- context [KeyBundle.__init__ ?k ?u ?c ?v ?f ?t ?g] =>
        destruct (KeyBundle.__init__ k u c v f t g) as [kb|e] eqn:Hkb end;
      try done; intros [= <- <-]; exists kb; cbn;
      (split; [by apply list_lookup_middle|by apply init_verify_ssl in Hkb]).
  - intros Hu.
    destruct (init_remote url 300
                (negb (Str.contains url "/localhost:"
                       || Str.contains url "/localhost/")) "jwk" "rsa" None Hu)
      as (kb & Hkb & Hr & Hs & Hv & _).
    exists kb. eexists. split; [|split; [|split]].
    + destruct (Str.contains url "/localhost:"
                || Str.contains url "/localhost/");
        simpl negb in Hkb; rewrite Hkb; reflexivity.
    + reflexivity.
    + cbn. by rewrite lookup_insert_eq.
    + done.
Qed.

(** The bundle that [add_hmac] makes for one usage. *)
Lemma hmac_bundle key use :
  KeyJar.KeyBundle_of_keys
    [ <["kty":=VStr "hmac"]> (<["key":=key]> (<["use":=VStr use]> ∅)) ]
  = Ok (Ex.in_memory
          [Key.HMAC_key {| Key.key := key; Key.kty := "hmac";
                           Key.alg := VStr ""; Key.use := VStr use;
                           Key.kid := VStr "" |}]).
Proof. reflexivity. Qed.

Lemma add_hmac_loop issuer key usage s own :
  issuer <> "" ->
  KeyJar.issuer_keys s !! "" = Some own ->
  exists s',
    for_each usage (fun use =>
      lst ← KeyJar.getitem "";
      kb ← lift (KeyJar.KeyBundle_of_keys
                   [ <["kty":=VStr "hmac"]>
                       (<["key":=key]> (<["use":=VStr use]> ∅)) ]);
      kb ← KeyJar.alloc kb;
      KeyJar.setitem "" (lst ++ [kb])) s = (Ok tt, s') ∧
    KeyJar.issuer_keys s' !! issuer = KeyJar.issuer_keys s !! issuer ∧
    KeyJar.issuer_keys s' !! "" =
      Some (own ++ seq (List.length (KeyJar.store s)) (List.length usage)).
Proof.
  intros Hne. revert s own. induction usage as [|use usage IH]; intros s own Hown.
  - exists s. cbn. by rewrite app_nil_r.
  - cbn [for_each].
    set (s1 := {| KeyJar.issuer_keys :=
                    <["" := own ++ [List.length (KeyJar.store s)]]>
                      (KeyJar.issuer_keys s);
                  KeyJar.store := KeyJar.store s ++
                    [Ex.in_memory
                       [Key.HMAC_key {| Key.key := key; Key.kty := "hmac";
                           Key.alg := VStr ""; Key.use := VStr use;
                           Key.kid := VStr "" |}]];
                  KeyJar.world := KeyJar.world s |}).
    destruct (IH s1 (own ++ [List.length (KeyJar.store s)])) as (s' & Hrun & Hi & Hs).
    { cbn. by rewrite lookup_insert_eq. }
    exists s'. split; [|split].
    + unfold mbind at 1. unfold M_bind at 1.
      unfold mbind at 1. unfold M_bind at 1. unfold KeyJar.getitem at 1.
      rewrite Hown. unfold mbind at 1. unfold M_bind at 1. unfold lift at 1.
      rewrite hmac_bundle. exact Hrun.
    + rewrite Hi. cbn. by rewrite lookup_insert_ne.
    + rewrite Hs. cbn. rewrite length_app. cbn.
      rewrite <- app_assoc. do 2 f_equal. cbn. f_equal. f_equal. lia.
Qed.

(** [add_hmac] for an issuer other than the empty one, in general: the
    issuer's list is as before (empty when there was none), and the new
    bundles are the last of the list of the empty issuer. *)
Lemma add_hmac_in_general issuer key usage s own :
  issuer <> "" ->
  KeyJar.issuer_keys s !! "" = Some own ->
  exists s',
    KeyJar.add_hmac issuer key usage s = (Ok tt, s') ∧
    KeyJar.issuer_keys s' !! issuer =
      Some (default [] (KeyJar.issuer_keys s !! issuer)) ∧
    KeyJar.issuer_keys s' !! "" =
      Some (own ++ seq (List.length (KeyJar.store s)) (List.length usage)).
Proof.
  intros Hne Hown. unfold KeyJar.add_hmac.
  rewrite (bind_ok (gets KeyJar.issuer_keys) _ s _ s eq_refl).
  destruct (KeyJar.issuer_keys s !! issuer) as [l|] eqn:Hl.
  - rewrite bool_decide_true by (apply elem_of_dom; by eexists).
    rewrite (bind_ok (mret tt) _ s tt s eq_refl).
    destruct (add_hmac_loop issuer key usage s own Hne Hown) as (s' & Hrun & Hi & Hs).
    exists s'. split; [done|]. split; [by rewrite Hi, Hl|done].
  - rewrite bool_decide_false by (by rewrite not_elem_of_dom).
    rewrite (bind_ok (KeyJar.setitem issuer []) _ s tt _ eq_refl).
    destruct (add_hmac_loop issuer key usage
                (KeyJar.set_issuer_keys (<[issuer:=[]]> (KeyJar.issuer_keys s)) s) own Hne)
      as (s' & Hrun & Hi & Hs).
    { cbn. by rewrite lookup_insert_ne. }
    exists s'. split; [done|]. split; [|done].
    rewrite Hi. cbn. by rewrite lookup_insert_eq.
Qed.
End Register.

Lemma add_verify_ssl_witness :
  exists kb s',
    @KeyJar.add Ex.offline "https://idp.example"
      "https://localhost:8080/jwks" (KeyJar.__init__ (Ex.at_time 0))
    = (Ok 0, s') ∧
    KeyJar.store s' = [kb] ∧
    KeyJar.issuer_keys s' !! "https://idp.example" = Some [0] ∧
    KeyBundle.remote kb = true ∧
    KeyBundle.source kb = Some "https://localhost:8080/jwks" ∧
    KeyBundle.verify_ssl kb = false.
Proof.
  apply (proj2 (@add_verify_ssl Ex.offline (KeyJar.__init__ (Ex.at_time 0))
                  "https://idp.example" "https://localhost:8080/jwks")).
  right. reflexivity.
Defined.

(** C5 at the issuer "https://idp.example" in a jar with an empty list of
    own keys: the issuer gets an entry, the bundle of the secret goes to the
    list of the empty issuer, and the secret is found among the own keys,
    not under the issuer. *)
Theorem add_hmac_goes_to_self :
  let E := Ex.offline in
  let s' := snd (KeyJar.add_hmac "https://idp.example" (VStr "secret")
                   ["sig"] (Ex.jar {[ "" := [] ]} [])) in
  KeyJar.issuer_keys s' !! "https://idp.example" = Some [] ∧
  KeyJar.issuer_keys s' !! "" = Some [0] ∧
  fst (KeyJar.get "sig" "" "https://idp.example" s') = Ok ∅ ∧
  fst (KeyJar.get "sig" "" "" s') = Ok {[ "hmac" := [VStr "secret"] ]}.
Proof. vm_compute. repeat split; reflexivity. Qed.

(** ** Removing keys *)

Lemma filter_none {A} (P : A -> Prop) `{forall x, Decision (P x)}
    (l : list A) :
  Forall (fun x => ~ P x) l -> filter P l = [].
Proof.
  induction 1 as [|x l Hx _ IH]; [done|].
  rewrite filter_cons. destruct (decide (P x)); [done|]. exact IH.
Qed.

(** [remove] empties a bundle all of whose keys it takes out. *)
Lemma remove_all key_type key b :
  Forall (removed_by key_type key) (KeyBundle._keys b) ->
  KeyBundle.remove key_type key b = (Ok tt, KeyBundle.set__keys [] b).
Proof.
  intros Hall. unfold KeyBundle.remove. destruct (truthy key) eqn:Ht; run.
  - rewrite filter_none; [done|].
    eapply Forall_impl; [exact Hall|].
    intros k [Hk Hv] Hn. apply Hn. split; [done|]. by apply Hv.
  - rewrite filter_none; [done|].
    eapply Forall_impl; [exact Hall|]. intros k [Hk Hv] Hn. by apply Hn.
Qed.

Lemma at_bundle_issuer_keys {A} kb (m : M (KeyBundle.t * World) A) s r s' :
  KeyJar.at_bundle kb m s = (r, s') ->
  KeyJar.issuer_keys s' = KeyJar.issuer_keys s.
Proof.
  unfold KeyJar.at_bundle. destruct (KeyJar.store s !! kb) as [b|].
  - destruct (m (b, KeyJar.world s)) as [r' bw]. by intros [= _ <-].
  - by intros [= _ <-].
Qed.

Lemma list_remove_first_length x l :
  List.length (KeyJar.list_remove_first x l) <= List.length l.
Proof.
  induction l as [|y r IH]; cbn; [done|].
  case_bool_decide; cbn; lia.
Qed.

(** The loop of [remove_key] ends by running past the end of the list:
    from position [i] of a list of length [n], fuel [n - i] is enough, and
    more fuel changes nothing. *)
Lemma remove_key_loop_fuel fuel extra i issuer key_type key s kcs :
  KeyJar.issuer_keys s !! issuer = Some kcs ->
  List.length kcs - i <= fuel ->
  KeyJar.remove_key_loop (fuel + extra) i issuer key_type key s =
  KeyJar.remove_key_loop fuel i issuer key_type key s.
Proof.
  revert i s kcs. induction fuel as [|fuel IH]; intros i s kcs Hi Hlen.
  - destruct extra as [|extra]; [done|]. cbn.
    erewrite bind_ok by (unfold KeyJar.getitem; rewrite Hi; reflexivity).
    rewrite lookup_ge_None_2 by lia. reflexivity.
  - cbn. apply bind_ext_on. intros kcs' s0 Hg.
    unfold KeyJar.getitem in Hg. rewrite Hi in Hg. injection Hg as <- <-.
    destruct (kcs !! i) as [kc|]; [|done].
    apply bind_ext_on. intros [] s1 H1.
    apply at_bundle_issuer_keys in H1.
    apply bind_ext_on. intros ks s2 H2.
    apply at_bundle_issuer_keys in H2.
    apply bind_ext_on. intros [] s3 H3.
    destruct (Nat.eqb (List.length ks) 0).
    + unfold KeyJar.setitem, modify in H3. injection H3 as <-.
      apply (IH _ _ (KeyJar.list_remove_first kc kcs)).
      * cbn. by rewrite lookup_insert_eq.
      * pose proof (list_remove_first_length kc kcs). lia.
    + injection H3 as <-. apply (IH _ _ kcs); [congruence|lia].
Qed.

(** C6, as amended: when the only bundle of an issuer holds only keys that
    the removal takes out, [remove_key] empties the bundle and takes it out
    of the issuer's list; the issuer keeps its entry, with an empty list. *)
Theorem remove_key_prunes_bundle (s : KeyJar.Sys) (issuer key_type : string)
    (key : Val) (kc : nat) (b : KeyBundle.t) :
  KeyJar.issuer_keys s !! issuer = Some [kc] ->
  KeyJar.store s !! kc = Some b ->
  Forall (removed_by key_type key) (KeyBundle._keys b) ->
  exists s',
    KeyJar.remove_key issuer key_type key s = (Ok tt, s') ∧
    KeyJar.store s' !! kc = Some (KeyBundle.set__keys [] b) ∧
    KeyJar.issuer_keys s' !! issuer = Some [] ∧
    KeyJar.__contains__ issuer s' = true.
Proof.
  intros Hi Hb Hall. eexists. split.
  - unfold KeyJar.remove_key, KeyJar.getitem. run. rewrite Hi. cbn.
    unfold KeyJar.getitem, KeyJar.at_bundle, KeyJar.setitem. run.
    rewrite Hi. cbn.
    rewrite Hb. rewrite (remove_all _ _ _ Hall). cbn.
    rewrite list_lookup_insert_eq by (by eapply lookup_lt_Some). cbn.
    rewrite bool_decide_true by done. reflexivity.
  - cbn. rewrite list_insert_insert_eq.
    rewrite list_lookup_insert_eq by (by eapply lookup_lt_Some).
    rewrite lookup_insert_eq. split; [done|]. split; [done|].
    unfold KeyJar.__contains__. cbn. apply bool_decide_eq_true.
    rewrite dom_insert_L. apply elem_of_union_l, elem_of_singleton.
    reflexivity.
Qed.

Lemma remove_key_prunes_bundle_witness :
  exists s',
    KeyJar.remove_key "https://idp.example" "HMAC" (VStr "secret")
      (Ex.jar {[ "https://idp.example" := [0] ]} [Ex.in_memory [Ex.secret]])
    = (Ok tt, s') ∧
    KeyJar.store s' !! 0 =
      Some (KeyBundle.set__keys [] (Ex.in_memory [Ex.secret])) ∧
    KeyJar.issuer_keys s' !! "https://idp.example" = Some [] ∧
    KeyJar.__contains__ "https://idp.example" s' = true.
Proof.
  apply (remove_key_prunes_bundle
           (Ex.jar {[ "https://idp.example" := [0] ]}
              [Ex.in_memory [Ex.secret]])
           "https://idp.example" "HMAC" (VStr "secret") 0
           (Ex.in_memory [Ex.secret]));
    [reflexivity|reflexivity|].
  repeat constructor.
Defined.

(** C6, as the specification words it, fails: after the only key of the
    only bundle is removed, the issuer is still in the jar. *)
Lemma issuer_entry_stays :
  ~ pruned_issuer_at
      (Ex.jar {[ "https://idp.example" := [0] ]} [Ex.in_memory [Ex.secret]])
      "https://idp.example" "hmac" (VStr "secret").
Proof.
  intros Hc.
  assert (Hall : Forall (removed_by "hmac" (VStr "secret")) [Ex.secret])
    by repeat constructor.
  specialize (Hc 0 (Ex.in_memory [Ex.secret]) eq_refl eq_refl Hall).
  vm_compute in Hc. discriminate.
Qed.

(** ** Keys for verification *)

Section Verify.
Context `{External}.

Lemma keys_settled b w :
  settled b w ->
  KeyBundle.keys (b, w) = (Ok (KeyBundle._keys b), (b, w)).
Proof.
  intros Hr. unfold KeyBundle.keys.
  by rewrite (bind_ok _ _ _ _ _ (uptodate_fresh b w Hr)).
Qed.

Lemma at_bundle_keys_settled s kb b :
  KeyJar.store s !! kb = Some b -> settled b (KeyJar.world s) ->
  KeyJar.at_bundle kb KeyBundle.keys s = (Ok (KeyBundle._keys b), s).
Proof.
  intros Hb Hr. unfold KeyJar.at_bundle. rewrite Hb, keys_settled by done. cbn.
  rewrite list_insert_id by done. by destruct s.
Qed.

(** [get] without a key type, on an issuer with one bundle that needs no
    refresh. *)
Lemma get_all_single s use issuer kb b :
  KeyJar.bundles_of issuer s = (Ok [kb], s) ->
  KeyJar.store s !! kb = Some b -> settled b (KeyJar.world s) ->
  KeyJar.get use "" issuer s =
  (Ok (KeyJar.collect_by_kty (KeyJar.key_use use) ∅ (KeyBundle._keys b)), s).
Proof.
  intros Hl Hb Hr. unfold KeyJar.get.
  rewrite (bind_ok _ _ _ _ _ Hl). cbn.
  rewrite (bind_ok _ _ _ _ _
             (bind_ok _ _ _ _ _ (at_bundle_keys_settled s kb b Hb Hr))).
  reflexivity.
Qed.

(** C7, as amended: with the signing keys [A], [B] of one kind in the
    bundle of the counterpart and the signing key [C] of that kind in the
    bundle of the empty issuer, neither bundle needing a refresh,
    [verify_keys] returns, under the kind, the material of [A], [B], [C]
    in this order, whatever the keys are, equal or not. *)
Theorem verify_keys_order (s : KeyJar.Sys) (part kind : string)
    (l1 l2 : nat) (b1 b2 : KeyBundle.t) (A B C : Key.t) :
  KeyJar.issuer_keys s !! part = Some [l1] ->
  KeyJar.issuer_keys s !! "" = Some [l2] ->
  KeyJar.store s !! l1 = Some b1 -> KeyJar.store s !! l2 = Some b2 ->
  settled b1 (KeyJar.world s) -> settled b2 (KeyJar.world s) ->
  KeyBundle._keys b1 = [A; B] -> KeyBundle._keys b2 = [C] ->
  signing kind A -> signing kind B -> signing kind C ->
  KeyJar.verify_keys part s =
  (Ok {[ kind := [material A; material B; material C] ]}, s).
Proof.
  intros Hp Hs Hb1 Hb2 Hr1 Hr2 Hk1 Hk2 [HuA HtA] [HuB HtB] [HuC HtC].
  unfold KeyJar.verify_keys, KeyJar.x_keys. cbn.
  unfold KeyJar.get_verify_key.
  rewrite (bind_ok _ _ _ _ _
             (get_all_single s "ver" part l1 b1
                (bundles_of_hit _ _ _ Hp) Hb1 Hr1)).
  rewrite (bind_ok _ _ _ _ _
             (get_all_single s "ver" "" l2 b2
                (bundles_of_hit _ _ _ Hs) Hb2 Hr2)).
  unfold mret, M_ret. f_equal. f_equal.
  rewrite Hk1, Hk2. unfold KeyJar.collect_by_kty, py_eq. cbn.
  rewrite HuA, HuB, HuC, HtA, HtB, HtC.
  rewrite !bool_decide_true by done.
  rewrite lookup_empty, lookup_insert_eq, insert_insert_eq.
  unfold KeyJar.extend_with. rewrite !insert_empty, map_fold_singleton.
  rewrite lookup_singleton_eq, insert_singleton_eq. reflexivity.
Qed.

End Verify.

Lemma verify_keys_order_witness :
  let s := Ex.jar {[ "https://idp.example" := [0]; "" := [1] ]}
             [Ex.in_memory [Ex.secret; Ex.hmac "other" "sig" "k2"];
              Ex.in_memory [Ex.secret]] in
  @KeyJar.verify_keys Ex.offline "https://idp.example" s =
  (Ok {[ "hmac" := [VStr "secret"; VStr "other"; VStr "secret"] ]}, s).
Proof.
  intros s.
  apply (@verify_keys_order Ex.offline s "https://idp.example" "hmac" 0 1
           (Ex.in_memory [Ex.secret; Ex.hmac "other" "sig" "k2"])
           (Ex.in_memory [Ex.secret])
           Ex.secret (Ex.hmac "other" "sig" "k2") Ex.secret);
    try reflexivity; try (left; reflexivity); split; reflexivity.
Defined.

(** C7, as the specification words it, fails when the bundle of the
    counterpart is remote and past its expiry: [verify_keys] refreshes it
    first, and with a server that cannot be reached the request raises out
    of [verify_keys]. *)
Lemma verify_order_refuted :
  ~ @verify_order_at Ex.offline
      {| KeyJar.issuer_keys := {[ "https://idp.example" := [0]; "" := [1] ]};
         KeyJar.store :=
           [KeyBundle.set__keys [Ex.secret; Ex.hmac "other" "sig" "k2"]
              Ex.bundle;
            Ex.in_memory [Ex.secret]];
         KeyJar.world := Ex.at_time 2000 |}
      "https://idp.example" "hmac".
Proof.
  intros Hc.
  specialize (Hc 0 1
                (KeyBundle.set__keys [Ex.secret; Ex.hmac "other" "sig" "k2"]
                   Ex.bundle)
                (Ex.in_memory [Ex.secret])
                Ex.secret (Ex.hmac "other" "sig" "k2") Ex.secret
                eq_refl eq_refl eq_refl eq_refl eq_refl eq_refl
                (conj eq_refl eq_refl) (conj eq_refl eq_refl)
                (conj eq_refl eq_refl)).
  vm_compute in Hc. discriminate.
Qed.

(** ** Serialising a key *)








Ltac not_in_list :=
  let Hin := fresh in
  intros Hin;
  repeat (apply elem_of_cons in Hin as [Hin|Hin]; [discriminate|]);
  by apply elem_of_nil in Hin.



Section Roundtrip.
Context `{External}.


End Roundtrip.



(** ** References into the store *)

(** The methods of the jar keep every reference inside the store, from the
    empty jar on: no method meets [NoSuchObject] in a jar built by them. *)

Lemma wf_init w : wf (KeyJar.__init__ w).
Proof. intros issuer l kc Hl. cbn in Hl. by rewrite lookup_empty in Hl. Qed.

Lemma wf_same_refs s s' : same_refs s s' -> wf s -> wf s'.
Proof.
  intros [Hi Hl] Hwf issuer l kc Hk Hin. rewrite Hl. rewrite Hi in Hk.
  by eapply Hwf.
Qed.

Lemma at_bundle_same_refs {A} kb (m : M (KeyBundle.t * World) A) s r s' :
  KeyJar.at_bundle kb m s = (r, s') -> same_refs s s'.
Proof.
  unfold KeyJar.at_bundle. destruct (KeyJar.store s !! kb) as [b|].
  - destruct (m (b, KeyJar.world s)) as [r' bw]. intros [= _ <-].
    split; [done|]. cbn. by rewrite length_insert.
  - by intros [= _ <-].
Qed.

Lemma same_refs_trans s1 s2 s3 :
  same_refs s1 s2 -> same_refs s2 s3 -> same_refs s1 s3.
Proof. intros [? ?] [? ?]. split; congruence. Qed.

Lemma fold_each_same_refs {A B} (l : list A) (body : B -> A -> M KeyJar.Sys B) :
  (forall acc x s r s', body acc x s = (r, s') -> same_refs s s') ->
  forall acc s r s', fold_each l body acc s = (r, s') -> same_refs s s'.
Proof.
  intros Hbody. induction l as [|x l IH]; intros acc s r s' Hrun.
  - injection Hrun as _ <-. by split.
  - cbn in Hrun. unfold mbind, M_bind in Hrun.
    destruct (body acc x s) as [[acc'|e] s1] eqn:Hb.
    + eapply same_refs_trans; [by eapply Hbody|by eapply IH].
    + injection Hrun as _ <-. by eapply Hbody.
Qed.

Section JarReads.
Context `{External}.

Lemma bundles_of_state issuer s r s' :
  KeyJar.bundles_of issuer s = (r, s') -> s' = s.
Proof.
  unfold KeyJar.bundles_of, KeyJar.getitem, except_KeyError, mret, M_ret.
  destruct (negb (String.eqb issuer "")).
  - destruct (KeyJar.issuer_keys s !! issuer); [by intros [= _ <-]|].
    destruct (Str.endswith issuer "/");
      match goal with |- context [KeyJar.issuer_keys s !! ?k] =>
        destruct (KeyJar.issuer_keys s !! k) end; by intros [= _ <-].
  - destruct (KeyJar.issuer_keys s !! issuer); by intros [= _ <-].
Qed.

(** [get] changes bundles and the world only. *)
Lemma get_same_refs use key_type issuer s r s' :
  KeyJar.get use key_type issuer s = (r, s') -> same_refs s s'.
Proof.
  unfold KeyJar.get. unfold mbind at 1. unfold M_bind at 1.
  destruct (KeyJar.bundles_of issuer s) as [[bl|e] s0] eqn:Hb;
    apply bundles_of_state in Hb; subst s0; [|by intros [= _ <-]].
  destruct bl as [|kb bl]; [by intros [= _ <-]|].
  destruct (negb (String.eqb key_type "")).
  - unfold mbind at 1. unfold M_bind at 1.
    destruct (fold_each _ _ _ s) as [[lst|e] s1] eqn:Hf; intros [= _ <-];
      (eapply fold_each_same_refs; [|exact Hf]);
      intros acc x s2 r2 s2' Hrun; unfold mbind, M_bind in Hrun;
      destruct (KeyJar.at_bundle x _ s2) as [[ks|e'] s3] eqn:Ha;
      injection Hrun as _ <-; by eapply at_bundle_same_refs.
  - intros Hf. eapply fold_each_same_refs; [|exact Hf].
    intros acc x s2 r2 s2' Hrun; unfold mbind, M_bind in Hrun;
      destruct (KeyJar.at_bundle x _ s2) as [[ks|e'] s3] eqn:Ha;
      injection Hrun as _ <-; by eapply at_bundle_same_refs.
Qed.

Lemma wf_get use key_type issuer s r s' :
  wf s -> KeyJar.get use key_type issuer s = (r, s') -> wf s'.
Proof. intros Hwf Hrun. eapply wf_same_refs; [by eapply get_same_refs|done]. Qed.

End JarReads.

(** A list of references into the store may be bound to an issuer. *)
Lemma wf_setitem s issuer l :
  wf s -> (forall kc, kc ∈ l -> kc < List.length (KeyJar.store s)) ->
  wf (KeyJar.set_issuer_keys (<[issuer:=l]> (KeyJar.issuer_keys s)) s).
Proof.
  intros Hwf Hl issuer' l' kc Hk Hin. cbn in *.
  destruct (decide (issuer = issuer')) as [<-|Hne].
  - rewrite lookup_insert_eq in Hk. injection Hk as <-. by apply Hl.
  - rewrite lookup_insert_ne in Hk by done. by eapply Hwf.
Qed.

(** A new object invalidates no reference. *)
Lemma wf_alloc s kb :
  wf s ->
  wf {| KeyJar.issuer_keys := KeyJar.issuer_keys s;
        KeyJar.store := KeyJar.store s ++ [kb];
        KeyJar.world := KeyJar.world s |}.
Proof.
  intros Hwf issuer l kc Hk Hin. cbn in *. rewrite length_app. cbn.
  specialize (Hwf issuer l kc Hk Hin). lia.
Qed.

Lemma list_remove_first_subset x l kc :
  kc ∈ KeyJar.list_remove_first x l -> kc ∈ l.
Proof.
  induction l as [|y r IH]; cbn; [done|].
  case_bool_decide.
  - intros Hin. by right.
  - intros [->|Hin]%elem_of_cons; [by left|]. right. by apply IH.
Qed.

Section JarWrites.
Context `{External}.

Lemma wf_add issuer url s r s1 :
  wf s -> KeyJar.add issuer url s = (r, s1) -> wf s1.
Proof.
  intros Hwf. rewrite add_runs.
  destruct (if Str.contains url "/localhost:" || Str.contains url "/localhost/"
            then KeyJar.KeyBundle_of_source url false
            else KeyJar.KeyBundle_of_source url true) as [kb|e];
    [|by intros [= _ <-]].
  intros [= _ <-].
  apply (wf_setitem
           {| KeyJar.issuer_keys := KeyJar.issuer_keys s;
              KeyJar.store := KeyJar.store s ++ [kb];
              KeyJar.world := KeyJar.world s |}); [by apply wf_alloc|].
  cbn. intros kc Hin. rewrite length_app. cbn.
  apply elem_of_app in Hin as [Hin|Hin].
  - destruct (KeyJar.issuer_keys s !! issuer) as [l|] eqn:Hl; cbn in Hin.
    + specialize (Hwf issuer l kc Hl Hin). lia.
    + by apply elem_of_nil in Hin.
  - apply list_elem_of_singleton in Hin as ->. lia.
Qed.

Lemma wf_add_hmac issuer key usage s r s' :
  wf s -> KeyJar.add_hmac issuer key usage s = (r, s') -> wf s'.
Proof.
  intros Hwf. unfold KeyJar.add_hmac.
  rewrite (bind_ok _ _ s (KeyJar.issuer_keys s) s) by reflexivity.
  assert (Hfirst : exists s0,
    (if bool_decide (issuer ∈ dom (KeyJar.issuer_keys s))
     then mret tt else KeyJar.setitem issuer []) s = (Ok tt, s0) ∧ wf s0).
  { case_bool_decide.
    - by exists s.
    - eexists. split; [reflexivity|]. apply wf_setitem; [done|].
      intros kc Hin. by apply elem_of_nil in Hin. }
  destruct Hfirst as (s0 & Hrun & Hwf0).
  rewrite (bind_ok _ _ _ _ _ Hrun). clear Hrun Hwf s. revert s0 Hwf0 r s'.
  induction usage as [|use usage IH]; intros s Hwf r s'.
  - by intros [= _ <-].
  - cbn [for_each]. unfold mbind at 1. unfold M_bind at 1.
    unfold mbind at 1. unfold M_bind at 1. unfold KeyJar.getitem at 1.
    destruct (KeyJar.issuer_keys s !! "") as [lst|] eqn:Hl;
      [|by intros [= _ <-]].
    unfold mbind at 1. unfold M_bind at 1. unfold lift at 1.
    destruct (KeyJar.KeyBundle_of_keys _) as [kb|e]; [|by intros [= _ <-]].
    erewrite bind_ok by (unfold KeyJar.alloc; reflexivity).
    unfold KeyJar.setitem at 1. unfold modify at 1.
    apply IH. apply (wf_setitem _ "" (lst ++ [List.length (KeyJar.store s)]));
      [by apply wf_alloc|].
    cbn. intros kc Hin. rewrite length_app. cbn.
    apply elem_of_app in Hin as [Hin|Hin].
    + specialize (Hwf "" lst kc Hl Hin). lia.
    + apply list_elem_of_singleton in Hin as ->. lia.
Qed.

End JarWrites.

Lemma wf_remove_key_loop fuel i issuer key_type key s r s' :
  wf s -> KeyJar.remove_key_loop fuel i issuer key_type key s = (r, s') ->
  wf s'.
Proof.
  revert i s. induction fuel as [|fuel IH]; intros i s Hwf.
  - by intros [= _ <-].
  - cbn [KeyJar.remove_key_loop]. unfold mbind at 1. unfold M_bind at 1.
    unfold KeyJar.getitem at 1.
    destruct (KeyJar.issuer_keys s !! issuer) as [kcs|] eqn:Hl;
      [|by intros [= _ <-]].
    destruct (kcs !! i) as [kc|]; [|by intros [= _ <-]].
    unfold mbind at 1. unfold M_bind at 1.
    destruct (KeyJar.at_bundle kc _ s) as [[[]|e] s1] eqn:H1;
      pose proof (at_bundle_same_refs _ _ _ _ _ H1) as Hs1;
      [|intros [= _ <-]; by eapply wf_same_refs].
    unfold mbind at 1. unfold M_bind at 1.
    destruct (KeyJar.at_bundle kc _ s1) as [[ks|e] s2] eqn:H2;
      pose proof (at_bundle_same_refs _ _ _ _ _ H2) as Hs2;
      pose proof (same_refs_trans _ _ _ Hs1 Hs2) as Hs12;
      [|intros [= _ <-]; by eapply wf_same_refs].
    assert (Hwf2 : wf s2) by (by eapply wf_same_refs).
    unfold mbind at 1. unfold M_bind at 1.
    destruct (Nat.eqb (List.length ks) 0).
    + unfold KeyJar.setitem, modify. apply IH. apply wf_setitem; [done|].
      intros kc' Hin%list_remove_first_subset.
      destruct Hs12 as [Hk Hlen]. rewrite Hlen. by eapply Hwf.
    + unfold mret, M_ret. by apply IH.
Qed.

Lemma wf_remove_key issuer key_type key s r s' :
  wf s -> KeyJar.remove_key issuer key_type key s = (r, s') -> wf s'.
Proof.
  intros Hwf. unfold KeyJar.remove_key, KeyJar.getitem, except_KeyError.
  unfold mbind at 1. unfold M_bind at 1. unfold mbind at 1. unfold M_bind at 1.
  destruct (KeyJar.issuer_keys s !! issuer) as [kcs|]; cbn.
  - by apply wf_remove_key_loop.
  - by intros [= _ <-].
Qed.

(** * Properties of the functions beside the specification *)

(** ** Decoding a description *)

Lemma K2C_cases typ cls :
  Key.K2C typ = Some cls ->
  (typ = "rsa" ∧ cls = Key.RSA_key_init) ∨
  (typ = "ec" ∧ cls = Key.EC_key_init) ∨
  (typ = "hmac" ∧ cls = Key.HMAC_key_init).
Proof.
  unfold Key.K2C.
  destruct (String.eqb_spec typ "rsa") as [->|_]; [intros [= <-]; by left|].
  destruct (String.eqb_spec typ "ec") as [->|_];
    [intros [= <-]; right; by left|].
  destruct (String.eqb_spec typ "hmac") as [->|_]; [|done].
  intros [= <-]. right. by right.
Qed.

Lemma accepts_false params (inst : Jwk) name :
  is_Some (inst !! name) -> name ∉ params -> Key.accepts params inst = false.
Proof.
  intros [v Hv] Hn. unfold Key.accepts. apply bool_decide_eq_false.
  intros Hall. apply Hn. by apply (Hall name v).
Qed.

Section Decoding.
Context `{External}.

(** [dc] changes the material, or [n] and [e], and nothing else. *)
Lemma dc_base k k' :
  Key.dc k = Ok k' ->
  kind_of k' = kind_of k ∧ Key.kty (Key.base k') = Key.kty (Key.base k) ∧
  Key.use (Key.base k') = Key.use (Key.base k) ∧
  Key.alg (Key.base k') = Key.alg (Key.base k) ∧
  Key.kid (Key.base k') = Key.kid (Key.base k).
Proof.
  destruct k as [b n e|b crv x y|b]; cbn; try (intros [= <-]; done).
  destruct (truthy (Key.key b)).
  - destruct (Key.key b); try done. intros [= <-]. done.
  - destruct (truthy n && truthy e); [|intros [= <-]; done].
    destruct (new_pub_key e n); cbn; [|done]. intros [= <-]. done.
Qed.

(** X1: a description that decodes has a string under "kty"; the kind of the
    key is that string in lower case, and it is the kind of the class that
    the key is an instance of. *)
Theorem from_jwk_kind (inst : Jwk) (k : Key.t) :
  Key.from_jwk inst = Ok k ->
  exists s,
    inst !! "kty" = Some (VStr s) ∧
    Key.kty (Key.base k) = Str.lower s ∧
    Key.kty (Key.base k) = kind_of k.
Proof.
  unfold Key.from_jwk.
  destruct (inst !! "kty") as [[s| |]|] eqn:Hk; try done.
  destruct (Key.K2C (Str.lower s)) as [cls|] eqn:Hc; [|done].
  intros Hrun. exists s. split; [done|].
  destruct (cls inst) as [k0|e] eqn:Hcls; [|done]. cbn in Hrun.
  apply dc_base in Hrun as (Hkind & Hkty & _). rewrite Hkty, Hkind.
  apply K2C_cases in Hc as [[Hs ->]|[[Hs ->]|[Hs ->]]];
    revert Hcls;
    unfold Key.RSA_key_init, Key.EC_key_init, Key.HMAC_key_init;
    (match goal with |- context [Key.accepts ?p inst] =>
       destruct (Key.accepts p inst) end; [|done]);
    unfold Key.kwarg; rewrite Hk; cbn; intros [= <-]; cbn; by rewrite Hs.
Qed.

(** X2: a description of a known kind with a member that is no parameter of
    the constructor of that kind is refused with [TypeError]. *)
Theorem from_jwk_unexpected_member (inst : Jwk) (s name : string) :
  inst !! "kty" = Some (VStr s) ->
  is_Some (Key.K2C (Str.lower s)) ->
  is_Some (inst !! name) ->
  name ∉ parameters (Str.lower s) ->
  Key.from_jwk inst = Raise TypeError.
Proof.
  intros Hk [cls Hc] Hm Hn. unfold Key.from_jwk. rewrite Hk, Hc.
  apply K2C_cases in Hc as [[Hs ->]|[[Hs ->]|[Hs ->]]];
    rewrite Hs in Hn; cbn in Hn;
    unfold Key.RSA_key_init, Key.EC_key_init, Key.HMAC_key_init;
    by rewrite (accepts_false _ inst name Hm Hn).
Qed.

(** X3: when [dc] returns on a key that holds its material, the material
    and the attributes of [Key] are as before, and a second call returns
    and changes nothing more: [n] and [e] of an RSA key, set from the
    material by the first call, are set to the same values again. *)
Theorem dc_idempotent_with_material (k k1 : Key.t) :
  truthy (Key.key (Key.base k)) = true ->
  Key.dc k = Ok k1 ->
  Key.base k1 = Key.base k ∧ Key.dc k1 = Ok k1.
Proof.
  destruct k as [b n e|b crv x y|b]; cbn; intros Ht; try (by intros [= <-]).
  rewrite Ht. destruct (Key.key b) as [s| |i kn ke] eqn:Hkey; try done.
  intros [= <-]. cbn. by rewrite Hkey.
Qed.

End Decoding.

Lemma from_jwk_kind_witness :
  exists s,
    Local.hmac_jwk "secret" !! "kty" = Some (VStr s) ∧
    Key.kty (Key.base (Local.hmac_key "secret")) = Str.lower s ∧
    Key.kty (Key.base (Local.hmac_key "secret")) =
      kind_of (Local.hmac_key "secret").
Proof.
  apply (@from_jwk_kind Ex.offline (Local.hmac_jwk "secret")
           (Local.hmac_key "secret")).
  reflexivity.
Defined.

Lemma from_jwk_unexpected_member_witness :
  @Key.from_jwk Ex.offline (<["x5c" := VStr "MIIC"]> (Local.hmac_jwk "secret"))
  = Raise TypeError.
Proof.
  apply (@from_jwk_unexpected_member Ex.offline
           (<["x5c" := VStr "MIIC"]> (Local.hmac_jwk "secret")) "HMAC" "x5c").
  - reflexivity.
  - by eexists.
  - by eexists.
  - not_in_list.
Defined.

Lemma dc_idempotent_with_material_witness :
  let k1 := Key.RSA_key (Key.base Ex.rsa) (VStr "mpi-n") (VStr "mpi-e") in
  Key.base k1 = Key.base Ex.rsa ∧ @Key.dc Ex.offline k1 = Ok k1.
Proof.
  intros k1.
  apply (@dc_idempotent_with_material Ex.offline Ex.rsa); reflexivity.
Defined.

(** ** Comparing keys *)


(** ** Extending a list of typed keys *)

Lemma rsa_ids_app l1 l2 : rsa_ids (l1 ++ l2) = rsa_ids l1 ++ rsa_ids l2.
Proof. apply omap_app. Qed.

Lemma uniq_seen_spec lst rk0 :
  rsa_objects lst ->
  exists rk,
    uniq_seen lst rk0 = Ok rk ∧
    forall id, is_Some (rk !! id) <-> is_Some (rk0 !! id) ∨ id ∈ rsa_ids lst.
Proof.
  intros Hobj. revert rk0.
  induction Hobj as [|[typ key] lst Hitem _ IH]; intros rk0.
  - exists rk0. split; [done|]. intros id. split; [by left|].
    intros [?|Hin]; [done|]. by apply elem_of_nil in Hin.
  - cbn [uniq_seen]. cbn in Hitem.
    destruct (String.eqb_spec typ "rsa") as [->|Hne].
    + destruct (Hitem eq_refl) as (i & n & e & ->). cbn.
      destruct (IH (<[(n, e) := VObj i n e]> rk0)) as (rk & Hrun & Hdom).
      exists rk. split; [done|]. intros id. rewrite Hdom.
      unfold rsa_ids. cbn. rewrite elem_of_cons.
      destruct (decide (id = (n, e))) as [->|Hid].
      * rewrite lookup_insert_eq. split; [intros _; right; by left|].
        intros _. left. by eexists.
      * rewrite lookup_insert_ne by done. tauto.
    + destruct (IH rk0) as (rk & Hrun & Hdom).
      exists rk. split; [done|]. intros id. rewrite Hdom.
      unfold rsa_ids, rsa_id_of. cbn.
      destruct (String.eqb_spec typ "rsa"); [done|]. done.
Qed.

Lemma uniq_add_spec keys :
  rsa_objects keys ->
  forall rk l,
    (forall id, is_Some (rk !! id) <-> id ∈ rsa_ids l) ->
    exists added,
      uniq_add keys rk l = (Ok tt, l ++ added) ∧
      sublist added keys ∧
      filter not_rsa added = filter not_rsa keys ∧
      (NoDup (rsa_ids l) -> NoDup (rsa_ids (l ++ added))) ∧
      (forall id, id ∈ rsa_ids keys -> id ∈ rsa_ids (l ++ added)).
Proof.
  induction 1 as [|[typ item] keys Hitem _ IH]; intros rk l Hinv.
  - exists []. rewrite app_nil_r. repeat split; try done.
    intros id Hin. by apply elem_of_nil in Hin.
  - cbn [uniq_add]. cbn in Hitem.
    destruct (String.eqb_spec typ "rsa") as [->|Hne]; cbn [negb].
    + destruct (Hitem eq_refl) as (i & n & e & ->).
      unfold mbind at 1. unfold M_bind at 1. unfold lift at 1.
      cbn [rsa_id attr_n attr_e mbind Result_bind].
      assert (Hids : forall l', rsa_ids (l' ++ [("rsa", VObj i n e)])
                                = rsa_ids l' ++ [(n, e)])
        by (intros l'; by rewrite rsa_ids_app).
      destruct (rk !! (n, e)) as [v|] eqn:Hrk.
      * destruct (IH rk l Hinv) as (added & Hrun & Hsub & Hfil & Hnd & Hall).
        exists added. split; [done|]. split; [by apply sublist_cons|].
        split.
        { rewrite Hfil. rewrite filter_cons_False; [done|].
          intros Hn. by apply Hn. }
        split; [done|]. intros id Hin.
        unfold rsa_ids in Hin. cbn in Hin.
        apply elem_of_cons in Hin as [->|Hin].
        -- rewrite rsa_ids_app. apply elem_of_app. left. apply Hinv.
           by eexists.
        -- by apply Hall.
      * unfold mbind at 1. unfold M_bind at 1. unfold modify at 1.
        destruct (IH (<[(n, e) := VObj i n e]> rk)
                    (l ++ [("rsa", VObj i n e)]))
          as (added & Hrun & Hsub & Hfil & Hnd & Hall).
        { intros id. rewrite Hids, elem_of_app, list_elem_of_singleton.
          destruct (decide (id = (n, e))) as [->|Hid].
          - rewrite lookup_insert_eq. split; [by right|]. intros _.
            by eexists.
          - rewrite lookup_insert_ne by done. rewrite Hinv. tauto. }
        exists (("rsa", VObj i n e) :: added).
        rewrite <- app_assoc in Hrun, Hnd, Hall. cbn in Hrun, Hnd, Hall.
        split; [done|]. split; [by apply sublist_skip|].
        split.
        { rewrite !filter_cons_False; [done| |]; intros Hn; by apply Hn. }
        split.
        { intros Hl. apply Hnd. rewrite Hids. apply NoDup_app.
          split; [done|]. split; [|apply NoDup_singleton].
          intros id Hin ->%list_elem_of_singleton.
          apply Hinv in Hin. rewrite Hrk in Hin. by destruct Hin. }
        intros id Hin. unfold rsa_ids in Hin. cbn in Hin.
        apply elem_of_cons in Hin as [->|Hin]; [|by apply Hall].
        rewrite rsa_ids_app. apply elem_of_app. right.
        unfold rsa_ids. cbn. by left.
    + unfold mbind at 1. unfold M_bind at 1. unfold modify at 1.
      assert (Hids : rsa_ids (l ++ [(typ, item)]) = rsa_ids l).
      { rewrite rsa_ids_app. unfold rsa_ids at 2, rsa_id_of. cbn.
        destruct (String.eqb_spec typ "rsa"); [done|]. apply app_nil_r. }
      destruct (IH rk (l ++ [(typ, item)]))
        as (added & Hrun & Hsub & Hfil & Hnd & Hall).
      { intros id. by rewrite Hids. }
      exists ((typ, item) :: added).
      rewrite <- app_assoc in Hrun, Hnd, Hall. cbn in Hrun, Hnd, Hall.
      split; [done|]. split; [by apply sublist_skip|].
      split; [by rewrite !filter_cons_True, Hfil by done|].
      split; [intros Hl; apply Hnd; by rewrite Hids|].
      intros id Hin. apply Hall. unfold rsa_ids, rsa_id_of in Hin.
      cbn in Hin. by destruct (String.eqb_spec typ "rsa").
Qed.

(** X5: [uniq_ext] extends the list by items of [keys], in their order: all
    that are not RSA keys, and the RSA keys whose [(n, e)] is not yet in the
    list.  RSA keys that are distinct in the list stay distinct, and every
    RSA key of [keys] is in the list afterwards.  The list returned is the
    list extended. *)
Theorem uniq_ext_spec (lst keys : list (string * Val)) :
  rsa_objects lst -> rsa_objects keys ->
  exists added,
    uniq_ext keys lst = (Ok (lst ++ added), lst ++ added) ∧
    sublist added keys ∧
    filter not_rsa added = filter not_rsa keys ∧
    (NoDup (rsa_ids lst) -> NoDup (rsa_ids (lst ++ added))) ∧
    (forall id, id ∈ rsa_ids keys -> id ∈ rsa_ids (lst ++ added)).
Proof.
  intros Hl Hk. destruct (uniq_seen_spec lst ∅ Hl) as (rk & Hseen & Hdom).
  destruct (uniq_add_spec keys Hk rk lst) as (added & Hrun & Hrest).
  { intros id. rewrite Hdom, lookup_empty. split; [|by right].
    intros [[? ?]|?]; done. }
  exists added. split; [|done]. unfold uniq_ext.
  rewrite (bind_ok (gets id) _ lst lst lst eq_refl).
  unfold mbind at 1. unfold M_bind at 1. unfold lift at 1. rewrite Hseen.
  by rewrite (bind_ok _ _ _ _ _ Hrun).
Qed.

Lemma uniq_ext_spec_witness :
  let lst := [("rsa", VObj 1 "n1" "e")] in
  let keys := [("rsa", VObj 2 "n1" "e"); ("hmac", VStr "s");
               ("rsa", VObj 3 "n2" "e")] in
  exists added,
    uniq_ext keys lst = (Ok (lst ++ added), lst ++ added) ∧
    sublist added keys ∧
    filter not_rsa added = filter not_rsa keys ∧
    (NoDup (rsa_ids lst) -> NoDup (rsa_ids (lst ++ added))) ∧
    (forall id, id ∈ rsa_ids keys -> id ∈ rsa_ids (lst ++ added)).
Proof.
  intros lst keys. apply (uniq_ext_spec lst keys).
  - repeat constructor. intros _. by eexists _, _, _.
  - repeat constructor; cbn; try done; intros _; by eexists _, _, _.
Defined.

(** ** Paths *)

Lemma endswith_app_slash s : Str.endswith (s +:+ "/") "/" = true.
Proof.
  induction s as [|c r IH]; [reflexivity|].
  change (Str.endswith (String c r +:+ "/") "/")
    with (String.eqb (String c (r +:+ "/")) "/"
          || Str.endswith (r +:+ "/") "/").
  rewrite IH. apply orb_true_r.
Qed.

Lemma proper_path_ends_with_slash (path : string) :
  Str.endswith (proper_path path) "/" = true.
Proof.
  unfold proper_path.
  match goal with |- context [if Str.endswith ?p "/" then _ else _] =>
    destruct (Str.endswith p "/") eqn:He end; [done|].
  apply endswith_app_slash.
Qed.

Lemma prefix_app_r p s t :
  String.prefix p s = true -> String.prefix p (s +:+ t) = true.
Proof.
  revert s. induction p as [|a p IH]; intros s;
    [intros _; by destruct (s +:+ t)|].
  destruct s as [|b s]; [done|].
  change (String.prefix (String a p) (String b s))
    with (if Ascii.ascii_dec a b then String.prefix p s else false).
  change (String.prefix (String a p) (String b s +:+ t))
    with (if Ascii.ascii_dec a b then String.prefix p (s +:+ t) else false).
  destruct (Ascii.ascii_dec a b); [apply IH|done].
Qed.

(** X6: [proper_path] gives every path a trailing slash.  A path that does not
    begin with a dot, or begins with "./", is made to begin with "./", and
    a second call leaves the result as it is. *)
Theorem proper_path_shape (path : string) :
  Str.endswith (proper_path path) "/" = true ∧
  (Str.startswith path "." = false ∨ Str.startswith path "./" = true ->
   Str.startswith (proper_path path) "./" = true ∧
   proper_path (proper_path path) = proper_path path).
Proof.
  split; [apply proper_path_ends_with_slash|].
  intros Hd.
  assert (Hs : Str.startswith (proper_path path) "./" = true).
  { unfold proper_path.
    match goal with |- context [if Str.endswith ?p "/" then _ else _] =>
      assert (Hp : Str.startswith p "./" = true) end.
    { destruct (Str.startswith path "./") eqn:H1; [done|].
      destruct Hd as [Hd|Hd]; [|done].
      destruct (Str.startswith path "/") eqn:H2.
      - destruct path as [|c r]; [done|]. unfold Str.startswith in *.
        change (String.prefix "/" (String c r))
          with (if Ascii.ascii_dec "/" c then String.prefix "" r else false)
          in H2.
        destruct (Ascii.ascii_dec "/" c) as [<-|]; [|done].
        clear. by destruct r.
      - rewrite Hd. clear. by destruct path. }
    match goal with |- context [if Str.endswith ?p "/" then _ else _] =>
      destruct (Str.endswith p "/") end; [done|].
    by apply prefix_app_r. }
  split; [done|].
  pose proof (proper_path_ends_with_slash path) as He.
  unfold proper_path at 1. by rewrite Hs, He.
Qed.

(** X7: a path of dots only, which names the current directory or one above
    it, is made the root directory. *)
Theorem proper_path_of_dots (path : string) :
  path <> "" -> lstrip_dots path = "" -> proper_path path = "/".
Proof.
  intros Hne Hdots. destruct path as [|c r]; [done|]. cbn in Hdots.
  destruct (Ascii.eqb_spec c ".") as [->|]; [|done].
  unfold proper_path.
  assert (H1 : Str.startswith (String "." r) "./" = false).
  { destruct r as [|c2 r2]; [done|]. cbn in Hdots.
    destruct (Ascii.eqb_spec c2 ".") as [->|]; [|done]. reflexivity. }
  rewrite H1.
  change (Str.startswith (String "." r) "/") with false.
  assert (H3 : Str.startswith (String "." r) "." = true)
    by (clear; by destruct r).
  rewrite H3.
  change (lstrip_dots (String "." r)) with (lstrip_dots r).
  rewrite Hdots. reflexivity.
Qed.

Lemma proper_path_of_dots_witness : proper_path ".." = "/".
Proof. apply (proper_path_of_dots ".."); [discriminate|reflexivity]. Defined.

(** ** Loading keys into a bundle *)

Lemma set__keys_id b : KeyBundle.set__keys (KeyBundle._keys b) b = b.
Proof. by destruct b. Qed.

Section Decoded.
Context `{External}.

Lemma do_keys_decoded keys ks b :
  decode_all keys = Ok ks ->
  KeyBundle.do_keys keys b =
  (Ok tt, KeyBundle.set__keys (KeyBundle._keys b ++ ks) b).
Proof.
  revert ks b. induction keys as [|inst rest IH]; intros ks b.
  - intros [= <-]. cbn. by rewrite app_nil_r, set__keys_id.
  - cbn. destruct (Key.from_jwk inst) as [k|e] eqn:Hk; [|done]. cbn.
    destruct (decode_all rest) as [ks'|e] eqn:Hrest; [|done]. cbn.
    intros [= <-].
    unfold mbind at 1. unfold M_bind at 1. unfold lift at 1.
    unfold mbind at 1. unfold M_bind at 1. unfold KeyBundle.append, modify.
    rewrite (IH ks' _ eq_refl). cbn. by rewrite <- app_assoc.
Qed.

(** [do_keys] returns when all descriptions decode, and raises what the
    first one that does not decode raises. *)
Lemma do_keys_result keys b :
  fst (KeyBundle.do_keys keys b) =
  match decode_all keys with Ok _ => Ok tt | Raise e => Raise e end.
Proof.
  revert b. induction keys as [|inst rest IH]; intros b; [done|].
  cbn [KeyBundle.do_keys decode_all].
  unfold mbind at 1. unfold M_bind at 1. unfold lift at 1.
  destruct (Key.from_jwk inst) as [k|e]; [|done].
  unfold mbind at 1. unfold M_bind at 1. unfold KeyBundle.append, modify.
  rewrite IH. cbn. by destruct (decode_all rest).
Qed.

(** X8: [do_keys] appends the decoded keys, in the order of the descriptions,
    to the keys that the bundle holds. *)
Theorem do_keys_appends (keys : list Jwk) (ks : list Key.t) (b : KeyBundle.t) :
  decode_all keys = Ok ks ->
  KeyBundle.do_keys keys b =
  (Ok tt, KeyBundle.set__keys (KeyBundle._keys b ++ ks) b).
Proof. apply do_keys_decoded. Qed.

(** X9: [do_keys] stops at the first description that does not decode: what
    that one raises is raised, the keys decoded before it stay in the
    bundle, and the descriptions after it are not looked at. *)
Theorem do_keys_stops (good rest : list Jwk) (bad : Jwk) (ks : list Key.t)
    (e : Exn) (b : KeyBundle.t) :
  decode_all good = Ok ks ->
  Key.from_jwk bad = Raise e ->
  KeyBundle.do_keys (good ++ bad :: rest) b =
  (Raise e, KeyBundle.set__keys (KeyBundle._keys b ++ ks) b).
Proof.
  revert ks b. induction good as [|inst good IH]; intros ks b.
  - intros [= <-] Hbad. cbn. unfold mbind, M_bind, lift. rewrite Hbad.
    by rewrite app_nil_r, set__keys_id.
  - cbn. destruct (Key.from_jwk inst) as [k|e'] eqn:Hk; [|done]. cbn.
    destruct (decode_all good) as [ks'|e'] eqn:Hrest; [|done]. cbn.
    intros [= <-] Hbad.
    unfold mbind at 1. unfold M_bind at 1. unfold lift at 1.
    unfold mbind at 1. unfold M_bind at 1. unfold KeyBundle.append, modify.
    rewrite (IH ks' _ eq_refl Hbad). cbn. by rewrite <- app_assoc.
Qed.

(** X10: with keys given, the constructor ignores the source: the bundle holds
    the decoded keys, has no source and is not remote, and the constructor
    raises what the first description that does not decode raises. *)
Theorem init_with_keys (inst : Jwk) (rest : list Jwk) (source : string)
    (cache_time : Z) (verify_ssl : bool) (fileformat keytype : string)
    (keyusage : option (list string)) :
  KeyBundle.__init__ (inst :: rest) source cache_time verify_ssl fileformat
    keytype keyusage =
  (ks ← decode_all (inst :: rest);
   Ok {| KeyBundle._keys := ks; KeyBundle.remote := false;
         KeyBundle.verify_ssl := verify_ssl;
         KeyBundle.cache_time := cache_time; KeyBundle.time_out := 0;
         KeyBundle.etag := ""; KeyBundle.cache_control := None;
         KeyBundle.source := None;
         KeyBundle.fileformat := Str.lower fileformat;
         KeyBundle.keytype := Str.lower keytype;
         KeyBundle.keyusage := keyusage |}).
Proof.
  unfold KeyBundle.__init__.
  destruct (decode_all (inst :: rest)) as [ks|e] eqn:Hd.
  - rewrite (do_keys_decoded _ ks _ Hd). reflexivity.
  - cbn [mbind Result_bind]. by rewrite do_keys_result, Hd.
Qed.

Lemma der_loop bkey i kn ke (usage : list string) b :
  bkey = VObj i kn ke ->
  for_each usage (fun use =>
    cls ← lift (match Key.K2C "rsa" with
                | Some c => Ok c
                | None => Raise KeyError
                end);
    _key ← lift (cls ∅);
    _key ← lift (Key.decomp (Key.set_key bkey _key));
    KeyBundle.append (Key.set_use (VStr use) _key)) b =
  (Ok tt,
   KeyBundle.set__keys
     (KeyBundle._keys b ++ (der_key bkey kn ke <$> usage)) b).
Proof.
  intros ->. revert b. induction usage as [|use usage IH]; intros b.
  - cbn. by rewrite app_nil_r, set__keys_id.
  - cbn [for_each]. unfold mbind at 1. unfold M_bind at 1.
    match goal with |- context [match ?m b with _ => _ end] =>
      assert (Hstep : m b = (Ok tt, KeyBundle.set__keys
                (KeyBundle._keys b ++ [der_key (VObj i kn ke) kn ke use]) b))
        by reflexivity;
      rewrite Hstep end.
    rewrite IH. cbn. by rewrite <- app_assoc.
Qed.

(** X11: of a DER file with an RSA key, [do_local_der] makes one key for every
    usage, "enc" and "sig" when none is given; the keys share the object
    read from the file, and carry its [n] and [e]. *)
Theorem do_local_der_rsa (filename : string)
    (keyusage : option (list string)) (i : positive) (kn ke : string)
    (b : KeyBundle.t) :
  rsa_load filename = Ok (VObj i kn ke) ->
  KeyBundle.do_local_der filename "rsa" keyusage b =
  (Ok tt,
   KeyBundle.set__keys
     (KeyBundle._keys b ++
      (der_key (VObj i kn ke) kn ke <$>
       match keyusage with
       | None | Some [] => ["enc"; "sig"]
       | Some l => l
       end)) b).
Proof.
  intros Hload. unfold KeyBundle.do_local_der.
  unfold mbind at 1. unfold M_bind at 1. unfold lift at 1.
  cbn [String.eqb Ascii.eqb Bool.eqb]. rewrite Hload.
  by apply (der_loop _ i).
Qed.

(** X12: a forced update of a bundle made of a local JWK file reads the file
    again: its keys replace those of the bundle; when the file cannot be
    read the exception is raised and the bundle is left without keys, and
    when a description does not decode the exception is raised and the
    bundle is left with the keys decoded before it. *)
Theorem update_local_jwk (b : KeyBundle.t) (w : World) (filename : string) :
  KeyBundle.remote b = false -> KeyBundle.source b = Some filename ->
  filename <> "" -> KeyBundle.fileformat b = "jwk" ->
  KeyBundle.update (b, w) =
  match read_jwks filename with
  | Raise e => (Raise e, (KeyBundle.set__keys [] b, w))
  | Ok body =>
      match decode_all body with
      | Ok ks => (Ok tt, (KeyBundle.set__keys ks b, w))
      | Raise e => (Raise e, (snd (KeyBundle.do_keys body
                                     (KeyBundle.set__keys [] b)), w))
      end
  end.
Proof.
  intros Hr Hs Hne Hf. unfold KeyBundle.update. run. rewrite Hs.
  destruct (String.eqb_spec filename ""); [done|]. rewrite Hr, Hf. cbn.
  unfold KeyBundle.do_local_jwk. run.
  destruct (read_jwks filename) as [body|e]; [|done].
  destruct (decode_all body) as [ks|e] eqn:Hd.
  - by rewrite (do_keys_decoded body ks _ Hd).
  - match goal with |- context [KeyBundle.do_keys body ?b0] =>
      rewrite (surjective_pairing (KeyBundle.do_keys body b0)) end.
    by rewrite do_keys_result, Hd.
Qed.

(** ** Refreshing a bundle, with status 200 *)

Lemma do_remote_200 b w r :
  snd (request (sent w) (KeyBundle.args b)) = Ok r ->
  status_code r = 200%Z ->
  KeyBundle.do_remote (b, w) =
  match body_keys r with
  | Raise e =>
      (Raise e,
       (KeyBundle.set_time_out
          (clock (after_request b w) + KeyBundle.cache_time b) b,
        after_request b w))
  | Ok body =>
      let b1 := KeyBundle.set_time_out
                  (clock (after_request b w) + KeyBundle.cache_time b) b in
      match KeyBundle.do_keys body b1 with
      | (Raise e, b2) => (Raise e, (b2, after_request b w))
      | (Ok _, b2) =>
          (Ok tt,
           (match hdr_cache_control r with
            | Some v => KeyBundle.set_cache_control (Some v)
            | None => fun b => b
            end
              (match hdr_etag r with
               | Some v => KeyBundle.set_etag v b2
               | None => b2
               end),
            after_request b w))
      end
  end.
Proof.
  intros Hq Hs.
  unfold KeyBundle.do_remote, after_request, KeyBundle.http_get. run.
  destruct (request (sent w) (KeyBundle.args b)) as [ticks r'].
  cbn in *. subst r'. rewrite Hs. cbn.
  destruct (body_keys r) as [body|e]; cbn; [|done].
  destruct (KeyBundle.do_keys body _) as [[[]|e] b2]; cbn; [|done].
  destruct (hdr_etag r), (hdr_cache_control r); done.
Qed.

(** X13: a refresh answered with status 200 and keys that decode replaces the
    keys of the bundle by the decoded ones, sets the expiry to the time of
    the answer plus [cache_time], and takes the validator and the cache
    control of the answer when it has them. *)
Theorem refresh_replaces_keys (b : KeyBundle.t) (w : World) (src : string)
    (r : Response) (body : list Jwk) (ks : list Key.t) :
  KeyBundle.remote b = true -> KeyBundle.source b = Some src -> src <> "" ->
  (KeyBundle.time_out b < clock w)%Z ->
  snd (request (sent w) (KeyBundle.args b)) = Ok r ->
  status_code r = 200%Z ->
  body_keys r = Ok body ->
  decode_all body = Ok ks ->
  KeyBundle.keys (b, w) = (Ok ks, (refreshed b w r ks, after_request b w)).
Proof.
  intros Hr Hs Hne Hlt Hq H200 Hb Hd. unfold KeyBundle.keys.
  erewrite (bind_ok KeyBundle._uptodate); cycle 1.
  { rewrite (uptodate_stale b w src) by assumption.
    rewrite (do_remote_200 (KeyBundle.set__keys [] b) w r Hq H200).
    rewrite Hb. cbv zeta. rewrite (do_keys_decoded body ks _ Hd).
    reflexivity. }
  unfold gets, refreshed. cbn.
  destruct (hdr_etag r), (hdr_cache_control r); reflexivity.
Qed.

(** X14: a refresh answered with status 200 and a body that cannot be read
    raises; the bundle is left without keys and with the new expiry, so
    that reads up to that expiry return no key and send no request. *)
Theorem unreadable_body_empties (b : KeyBundle.t) (w : World) (src : string)
    (r : Response) (e : Exn) (t : Z) (typ typ' : string) :
  KeyBundle.remote b = true -> KeyBundle.source b = Some src -> src <> "" ->
  (KeyBundle.time_out b < clock w)%Z ->
  snd (request (sent w) (KeyBundle.args b)) = Ok r ->
  status_code r = 200%Z ->
  body_keys r = Raise e ->
  (t <= clock (after_request b w) + KeyBundle.cache_time b)%Z ->
  let b1 := KeyBundle.set_time_out
              (clock (after_request b w) + KeyBundle.cache_time b)
              (KeyBundle.set__keys [] b) in
  KeyBundle.get typ (b, w) = (Raise e, (b1, after_request b w)) ∧
  KeyBundle.get typ' (b1, set_clock t (after_request b w)) =
  (Ok [], (b1, set_clock t (after_request b w))).
Proof.
  intros Hr Hs Hne Hlt Hq H200 Hb Ht b1. split.
  - unfold KeyBundle.get. erewrite (bind_raise KeyBundle._uptodate); [done|].
    rewrite (uptodate_stale b w src) by assumption.
    rewrite (do_remote_200 (KeyBundle.set__keys [] b) w r Hq H200).
    by rewrite Hb.
  - unfold KeyBundle.get. erewrite (bind_ok KeyBundle._uptodate); cycle 1.
    { apply uptodate_fresh. right. exact Ht. }
    run. by destruct (String.eqb typ' "").
Qed.

(** ** Reading a bundle that needs no refresh *)

Lemma get_settled typ b w :
  settled b w ->
  KeyBundle.get typ (b, w) =
  (Ok (if String.eqb typ "" then KeyBundle._keys b
       else of_kind typ (KeyBundle._keys b)), (b, w)).
Proof.
  intros Hs. unfold KeyBundle.get.
  rewrite (bind_ok KeyBundle._uptodate _ _ _ _ (uptodate_fresh b w Hs)).
  unfold gets, mbind, M_bind, mret, M_ret. cbn.
  by destruct (String.eqb typ "").
Qed.

End Decoded.

Lemma filter_filter_out {A} (P Q : A -> Prop) `{forall x, Decision (P x)}
    `{forall x, Decision (Q x)} (l : list A) :
  (forall x, P x -> ~ Q x) -> filter P (filter Q l) = [].
Proof.
  intros HPQ. induction l as [|x l IH]; [done|].
  rewrite (filter_cons Q). destruct (decide (Q x)) as [Hq|Hq]; [|done].
  rewrite filter_cons. destruct (decide (P x)) as [Hp|Hp]; [|done].
  by destruct (HPQ x Hp).
Qed.

Lemma filter_filter_keep {A} (P Q : A -> Prop) `{forall x, Decision (P x)}
    `{forall x, Decision (Q x)} (l : list A) :
  (forall x, P x -> Q x) -> filter P (filter Q l) = filter P l.
Proof.
  intros HPQ. induction l as [|x l IH]; [done|].
  rewrite (filter_cons Q), (filter_cons P).
  destruct (decide (Q x)) as [Hq|Hq].
  - rewrite filter_cons. destruct (decide (P x)); by rewrite IH.
  - destruct (decide (P x)) as [Hp|Hp]; [by destruct (Hq (HPQ x Hp))|done].
Qed.

Section Removal.
Context `{External}.

(** X15: after [remove(typ)], without a key given, a read of that kind, named
    in any case, returns nothing, and a read of another kind returns what
    it returned before; the bundle is one that needs no refresh. *)
Theorem remove_then_get (typ typ' : string) (b : KeyBundle.t) (w : World) :
  settled b w -> typ' <> "" ->
  let b' := snd (KeyBundle.remove typ VNone b) in
  fst (KeyBundle.get typ' (b', w)) =
  Ok (if bool_decide (Str.lower typ' = Str.lower typ) then []
      else of_kind typ' (KeyBundle._keys b)).
Proof.
  intros Hs Hne b'. subst b'. unfold KeyBundle.remove. cbn.
  rewrite get_settled by (destruct Hs; [by left|by right]).
  destruct (String.eqb_spec typ' ""); [done|]. cbn.
  unfold of_kind. case_bool_decide as Heq.
  - f_equal. apply filter_filter_out. intros k Hk Hn. apply Hn. congruence.
  - f_equal. apply filter_filter_keep. intros k Hk Hn. congruence.
Qed.

End Removal.

Lemma do_keys_appends_witness :
  @KeyBundle.do_keys Ex.offline [Local.hmac_jwk "s1"; Local.hmac_jwk "s2"]
    (Ex.in_memory [Ex.secret]) =
  (Ok tt,
   KeyBundle.set__keys
     ([Ex.secret] ++ [Local.hmac_key "s1"; Local.hmac_key "s2"])
     (Ex.in_memory [Ex.secret])).
Proof.
  apply (@do_keys_appends Ex.offline
           [Local.hmac_jwk "s1"; Local.hmac_jwk "s2"]
           [Local.hmac_key "s1"; Local.hmac_key "s2"]
           (Ex.in_memory [Ex.secret])).
  reflexivity.
Defined.

Lemma do_keys_stops_witness :
  @KeyBundle.do_keys Ex.offline
    ([Local.hmac_jwk "s1"] ++ ∅ :: [Local.hmac_jwk "s2"])
    (Ex.in_memory [Ex.secret]) =
  (Raise KeyError,
   KeyBundle.set__keys ([Ex.secret] ++ [Local.hmac_key "s1"])
     (Ex.in_memory [Ex.secret])).
Proof.
  apply (@do_keys_stops Ex.offline [Local.hmac_jwk "s1"]
           [Local.hmac_jwk "s2"] ∅ [Local.hmac_key "s1"] KeyError
           (Ex.in_memory [Ex.secret])); reflexivity.
Defined.

Lemma do_local_der_rsa_witness :
  let E := Local.files (Raise IOError) (Ok (VObj 7 "mpi-n" "mpi-e")) in
  KeyBundle.do_local_der "key.der" "rsa" None (Ex.in_memory []) =
  (Ok tt,
   KeyBundle.set__keys
     ([] ++ (der_key (VObj 7 "mpi-n" "mpi-e") "mpi-n" "mpi-e"
               <$> ["enc"; "sig"]))
     (Ex.in_memory [])).
Proof.
  intros E.
  apply (@do_local_der_rsa E "key.der" None 7 "mpi-n" "mpi-e"
           (Ex.in_memory [])).
  reflexivity.
Defined.

Lemma update_local_jwk_witness :
  let E := Local.files (Ok [Local.hmac_jwk "s1"]) (Raise IOError) in
  KeyBundle.update (Local.bundle [Ex.secret], Ex.at_time 0) =
  (Ok tt,
   (KeyBundle.set__keys [Local.hmac_key "s1"] (Local.bundle [Ex.secret]),
    Ex.at_time 0)).
Proof.
  intros E.
  apply (@update_local_jwk E (Local.bundle [Ex.secret]) (Ex.at_time 0)
           "keys.jwk"); [reflexivity|reflexivity|discriminate|reflexivity].
Defined.

Lemma refresh_replaces_keys_witness :
  let E := Ex.server (5%Z, Ok (Local.fresh_keys [Local.hmac_jwk "s1"])) in
  KeyBundle.keys (Ex.bundle, Ex.at_time 2000) =
  (Ok [Local.hmac_key "s1"],
   (refreshed Ex.bundle (Ex.at_time 2000)
      (Local.fresh_keys [Local.hmac_jwk "s1"]) [Local.hmac_key "s1"],
    after_request Ex.bundle (Ex.at_time 2000))).
Proof.
  intros E.
  apply (@refresh_replaces_keys E Ex.bundle (Ex.at_time 2000)
           "https://idp.example/jwks"
           (Local.fresh_keys [Local.hmac_jwk "s1"]) [Local.hmac_jwk "s1"]
           [Local.hmac_key "s1"]);
    (reflexivity || discriminate).
Defined.

Lemma unreadable_body_empties_witness :
  let E := Ex.server (5%Z, Ok Local.garbled) in
  let b1 := KeyBundle.set_time_out 2305 (KeyBundle.set__keys [] Ex.bundle) in
  let w1 := after_request Ex.bundle (Ex.at_time 2000) in
  KeyBundle.get "" (Ex.bundle, Ex.at_time 2000)
  = (Raise ValueError, (b1, w1)) ∧
  KeyBundle.get "hmac" (b1, set_clock 2100 w1)
  = (Ok [], (b1, set_clock 2100 w1)).
Proof.
  intros E.
  apply (@unreadable_body_empties E Ex.bundle (Ex.at_time 2000)
           "https://idp.example/jwks" Local.garbled ValueError 2100 "" "hmac");
    try reflexivity; try discriminate.
Defined.

Lemma remove_then_get_witness :
  fst (@KeyBundle.get Ex.offline "hmac"
         (snd (KeyBundle.remove "HMAC" VNone
                 (Ex.in_memory [Ex.secret; Ex.rsa])), Ex.at_time 0)) =
  Ok (if bool_decide (Str.lower "hmac" = Str.lower "HMAC") then []
      else of_kind "hmac" [Ex.secret; Ex.rsa]).
Proof.
  apply (@remove_then_get Ex.offline "HMAC" "hmac"
           (Ex.in_memory [Ex.secret; Ex.rsa]) (Ex.at_time 0));
    [by left|discriminate].
Defined.

(** ** Looking keys up in a jar whose bundles need no refresh *)

Lemma collect_by_kty_lookup use res ks kind :
  KeyJar.collect_by_kty use res ks !! kind =
  match pick use kind ks with
  | [] => res !! kind
  | l => Some (default [] (res !! kind) ++ l)
  end.
Proof.
  unfold KeyJar.collect_by_kty, pick. revert res.
  induction ks as [|k ks IH]; intros res; [done|].
  cbn [foldl]. rewrite IH. rewrite filter_cons. unfold py_eq.
  destruct (decide (Key.use (Key.base k) = VStr use)) as [Hu|Hu].
  - rewrite bool_decide_true by done.
    destruct (decide (Key.kty (Key.base k) = kind)) as [<-|Hk].
    + rewrite decide_True by done. cbn [fmap list_fmap].
      assert (Hl : forall (d : gmap string (list Val)),
                d !! Key.kty (Key.base k) =
                  Some (default [] (res !! Key.kty (Key.base k))
                        ++ [material k]) ->
                match material <$>
                        filter (fun k0 =>
                                  Key.use (Key.base k0) = VStr use
                                  ∧ Key.kty (Key.base k0) = Key.kty (Key.base k))
                          ks with
                | [] => d !! Key.kty (Key.base k)
                | l => Some (default [] (d !! Key.kty (Key.base k)) ++ l)
                end =
                Some (default [] (res !! Key.kty (Key.base k))
                      ++ material k ::
                         (material <$>
                            filter (fun k0 =>
                                      Key.use (Key.base k0) = VStr use
                                      ∧ Key.kty (Key.base k0)
                                        = Key.kty (Key.base k))
                              ks))).
      { intros d ->. cbn. destruct (material <$> filter _ ks); [done|].
        by rewrite <- app_assoc. }
      destruct (res !! Key.kty (Key.base k)) as [l|] eqn:Hres;
        apply Hl; by rewrite lookup_insert_eq.
    + rewrite decide_False by (by intros [_ ?]).
      destruct (res !! Key.kty (Key.base k)); by rewrite lookup_insert_ne.
  - rewrite bool_decide_false by congruence.
    by rewrite decide_False by (by intros [? _]).
Qed.

Lemma collect_by_kty_app use res ks1 ks2 :
  KeyJar.collect_by_kty use res (ks1 ++ ks2) =
  KeyJar.collect_by_kty use (KeyJar.collect_by_kty use res ks1) ks2.
Proof. apply foldl_app. Qed.

Lemma collect_with_use use lst ks :
  KeyJar.collect use lst ks = lst ++ with_use use ks.
Proof.
  unfold KeyJar.collect, with_use. revert lst.
  induction ks as [|k ks IH]; intros lst; [by rewrite app_nil_r|].
  cbn [foldl]. rewrite IH, filter_cons. unfold py_eq.
  destruct (decide (Key.use (Key.base k) = VStr use)) as [Hu|Hu].
  - rewrite bool_decide_true by done. by rewrite <- app_assoc.
  - by rewrite bool_decide_false by congruence.
Qed.

Lemma keys_in_cons s kb bl b :
  KeyJar.store s !! kb = Some b ->
  keys_in s (kb :: bl) = KeyBundle._keys b ++ keys_in s bl.
Proof. intros Hb. unfold keys_in. cbn. by rewrite Hb. Qed.

Section Grouping.
Context `{External}.

Lemma at_bundle_get_settled s kb b typ :
  KeyJar.store s !! kb = Some b -> settled b (KeyJar.world s) ->
  KeyJar.at_bundle kb (KeyBundle.get typ) s =
  (Ok (if String.eqb typ "" then KeyBundle._keys b
       else of_kind typ (KeyBundle._keys b)), s).
Proof.
  intros Hb Hr. unfold KeyJar.at_bundle. rewrite Hb, get_settled by done. cbn.
  rewrite list_insert_id by done. by destruct s.
Qed.

Lemma fold_grouped use s bl res :
  all_settled s bl ->
  fold_each bl
    (fun res bundles =>
       ks ← KeyJar.at_bundle bundles KeyBundle.keys;
       mret (KeyJar.collect_by_kty use res ks)) res s =
  (Ok (KeyJar.collect_by_kty use res (keys_in s bl)), s).
Proof.
  intros Hall. revert res. induction Hall as [|kb bl (b & Hb & Hs) _ IH];
    intros res; [done|].
  cbn [fold_each].
  rewrite (bind_ok _ _ _ _ _
             (bind_ok _ _ _ _ _ (at_bundle_keys_settled s kb b Hb Hs))).
  unfold mret at 1. unfold M_ret at 1. rewrite IH.
  by rewrite (keys_in_cons s kb bl b Hb), collect_by_kty_app.
Qed.

Lemma fold_typed use key_type s bl lst :
  key_type <> "" -> all_settled s bl ->
  fold_each bl
    (fun lst bundles =>
       ks ← KeyJar.at_bundle bundles (KeyBundle.get key_type);
       mret (KeyJar.collect use lst ks)) lst s =
  (Ok (lst ++ with_use use (of_kind key_type (keys_in s bl))), s).
Proof.
  intros Hne Hall. revert lst. induction Hall as [|kb bl (b & Hb & Hs) _ IH];
    intros lst; [by rewrite app_nil_r|].
  cbn [fold_each].
  rewrite (bind_ok _ _ _ _ _
             (bind_ok _ _ _ _ _ (at_bundle_get_settled s kb b key_type Hb Hs))).
  unfold mret at 1. unfold M_ret at 1. rewrite IH.
  destruct (String.eqb_spec key_type ""); [done|].
  rewrite collect_with_use, (keys_in_cons s kb bl b Hb).
  unfold of_kind, with_use.
  by rewrite filter_app, filter_app, fmap_app, app_assoc.
Qed.

Lemma get_grouped_run (s : KeyJar.Sys) (use issuer : string)
    (bl : list nat) :
  KeyJar.bundles_of issuer s = (Ok bl, s) ->
  all_settled s bl ->
  exists res,
    KeyJar.get use "" issuer s = (Ok res, s) ∧
    forall kind,
      res !! kind = some_list (pick (KeyJar.key_use use) kind (keys_in s bl)).
Proof.
  intros Hb Hall. unfold KeyJar.get. rewrite (bind_ok _ _ _ _ _ Hb).
  destruct bl as [|kb bl].
  - exists ∅. split; [done|]. intros kind. by rewrite lookup_empty.
  - cbn [negb String.eqb]. rewrite fold_grouped by done.
    eexists. split; [reflexivity|]. intros kind.
    rewrite collect_by_kty_lookup, lookup_empty.
    by destruct (pick (KeyJar.key_use use) kind (keys_in s (kb :: bl))).
Qed.

(** X16: [get] without a key type, on bundles that need no refresh: under every
    kind, the material of the keys of that kind whose use is the one asked
    for, in the order of the bundles and of their keys; a kind without such
    a key has no entry, and the jar is left as it is. *)
Theorem get_grouped (s : KeyJar.Sys) (use issuer : string) (bl : list nat) :
  KeyJar.bundles_of issuer s = (Ok bl, s) ->
  all_settled s bl ->
  exists res,
    KeyJar.get use "" issuer s = (Ok res, s) ∧
    forall kind,
      res !! kind = some_list (pick (KeyJar.key_use use) kind (keys_in s bl)).
Proof. apply get_grouped_run. Qed.

(** X17: [get] with a key type, on bundles that need no refresh: one entry,
    under the key type as it is given, with the material of the keys of
    that kind, compared in lower case, whose use is the one asked for; the
    entry is there when no key matches, and no entry is there when the
    issuer has no bundle. *)
Theorem get_typed (s : KeyJar.Sys) (use key_type issuer : string)
    (bl : list nat) :
  key_type <> "" ->
  KeyJar.bundles_of issuer s = (Ok bl, s) ->
  all_settled s bl ->
  KeyJar.get use key_type issuer s =
  (Ok match bl with
      | [] => ∅
      | _ :: _ =>
          {[ key_type :=
               with_use (KeyJar.key_use use) (of_kind key_type (keys_in s bl)) ]}
      end, s).
Proof.
  intros Hne Hb Hall. unfold KeyJar.get. rewrite (bind_ok _ _ _ _ _ Hb).
  destruct bl as [|kb bl]; [done|].
  destruct (String.eqb_spec key_type ""); [done|]. cbn [negb].
  by rewrite (bind_ok _ _ _ _ _ (fold_typed _ _ _ _ [] Hne Hall)).
Qed.
End Grouping.

Lemma extend_with_lookup (keys own : gmap string (list Val)) kind :
  KeyJar.extend_with keys own !! kind =
  match own !! kind with
  | Some (v :: val) => Some (default [] (keys !! kind) ++ v :: val)
  | _ => keys !! kind
  end.
Proof.
  unfold KeyJar.extend_with. revert kind.
  apply (map_fold_weak_ind
           (fun (r : gmap string (list Val)) (m : gmap string (list Val)) =>
              forall kind,
                r !! kind =
                match m !! kind with
                | Some (v :: val) => Some (default [] (keys !! kind) ++ v :: val)
                | _ => keys !! kind
                end)).
  - intros kind. by rewrite lookup_empty.
  - intros i x m r Hi IH kind.
    destruct (decide (i = kind)) as [->|Hne].
    + rewrite lookup_insert_eq. specialize (IH kind). rewrite Hi in IH.
      destruct x as [|v val]; [done|].
      rewrite IH. destruct (keys !! kind); by rewrite lookup_insert_eq.
    + rewrite lookup_insert_ne by done. rewrite <- IH.
      destruct x as [|v val]; [done|].
      destruct (r !! i); by rewrite lookup_insert_ne.
Qed.

Lemma some_list_app l1 l2 :
  match some_list l2 with
  | Some (v :: val) => Some (default [] (some_list l1) ++ v :: val)
  | _ => some_list l1
  end = some_list (l1 ++ l2).
Proof.
  destruct l2 as [|v l2]; cbn; [by rewrite app_nil_r|].
  destruct l1 as [|u l1]; done.
Qed.

Section OwnKeys.
Context `{External}.

Lemma x_keys_merges (s : KeyJar.Sys) (var use part : string)
    (bl1 bl2 : list nat) f :
  KeyJar.getattr_get_key var = Some f ->
  (forall kt owner, f kt owner = KeyJar.get use kt owner) ->
  KeyJar.bundles_of part s = (Ok bl1, s) ->
  KeyJar.issuer_keys s !! "" = Some bl2 ->
  all_settled s bl1 -> all_settled s bl2 ->
  exists res,
    KeyJar.x_keys var part s = (Ok res, s) ∧
    forall kind,
      res !! kind =
      some_list (pick (KeyJar.key_use use) kind (keys_in s bl1)
                 ++ pick (KeyJar.key_use use) kind (keys_in s bl2)).
Proof.
  intros Hvar Hf Hb1 Hb2 Hs1 Hs2. unfold KeyJar.x_keys. rewrite Hvar.
  destruct (get_grouped_run s use part bl1 Hb1 Hs1) as (r1 & Hr1 & Hl1).
  destruct (get_grouped_run s use "" bl2 (bundles_of_hit _ _ _ Hb2) Hs2)
    as (r2 & Hr2 & Hl2).
  rewrite !Hf. rewrite (bind_ok _ _ _ _ _ Hr1), (bind_ok _ _ _ _ _ Hr2).
  eexists. split; [reflexivity|]. intros kind.
  rewrite extend_with_lookup, Hl1, Hl2. apply some_list_app.
Qed.

(** X18: [verify_keys] and [decrypt_keys], on bundles that need no refresh:
    under every kind, the keys of the counterpart with the use "sig" (or
    "enc"), followed by the own keys with that use; nothing is left out and
    nothing is added. *)
Theorem x_keys_concatenates (s : KeyJar.Sys) (part : string)
    (bl1 bl2 : list nat) :
  KeyJar.bundles_of part s = (Ok bl1, s) ->
  KeyJar.issuer_keys s !! "" = Some bl2 ->
  all_settled s bl1 -> all_settled s bl2 ->
  (exists res,
     KeyJar.verify_keys part s = (Ok res, s) ∧
     forall kind,
       res !! kind =
       some_list (pick "sig" kind (keys_in s bl1)
                  ++ pick "sig" kind (keys_in s bl2))) ∧
  (exists res,
     KeyJar.decrypt_keys part s = (Ok res, s) ∧
     forall kind,
       res !! kind =
       some_list (pick "enc" kind (keys_in s bl1)
                  ++ pick "enc" kind (keys_in s bl2))).
Proof.
  intros Hb1 Hb2 Hs1 Hs2. split.
  - apply (x_keys_merges s "verify" "ver" part bl1 bl2 KeyJar.get_verify_key);
      done.
  - apply (x_keys_merges s "decrypt" "dec" part bl1 bl2 KeyJar.get_decrypt_key);
      done.
Qed.

(** X19: [get] changes no entry of the jar, whatever it returns or raises. *)
Theorem get_keeps_issuers (s : KeyJar.Sys) (use key_type issuer : string) :
  KeyJar.issuer_keys (snd (KeyJar.get use key_type issuer s)) =
  KeyJar.issuer_keys s.
Proof.
  destruct (KeyJar.get use key_type issuer s) as [r s'] eqn:Hrun.
  by destruct (get_same_refs _ _ _ _ _ _ Hrun).
Qed.

(** X20: without an entry for the own keys, [verify_keys] and [decrypt_keys]
    return for no counterpart: when the lookup of the counterpart has
    returned, that of the own keys raises [KeyError]. *)
Theorem x_keys_needs_own_entry (s : KeyJar.Sys) (part : string) :
  KeyJar.issuer_keys s !! "" = None ->
  is_ok (fst (KeyJar.verify_keys part s)) = false ∧
  is_ok (fst (KeyJar.decrypt_keys part s)) = false ∧
  forall r1 s1,
    KeyJar.get "ver" "" part s = (Ok r1, s1) ->
    KeyJar.verify_keys part s = (Raise KeyError, s1).
Proof.
  intros Hown.
  assert (Hgen : forall use r1 s1,
    KeyJar.get use "" part s = (Ok r1, s1) ->
    KeyJar.get use "" "" s1 = (Raise KeyError, s1)).
  { intros use r1 s1 Hrun. apply get_same_refs in Hrun as [Hi _].
    unfold KeyJar.get, KeyJar.bundles_of. cbn [String.eqb negb].
    apply bind_raise. unfold KeyJar.getitem. by rewrite Hi, Hown. }
  assert (Hx : forall use f,
    (forall kt owner, f kt owner = KeyJar.get use kt owner) ->
    (forall r1 s1, KeyJar.get use "" part s = (Ok r1, s1) ->
       (keys ← f "" part; own ← f "" ""; mret (KeyJar.extend_with keys own)) s
       = (Raise KeyError, s1)) ∧
    is_ok (fst ((keys ← f "" part; own ← f "" "";
                 mret (KeyJar.extend_with keys own)) s)) = false).
  { intros use f Hf. rewrite !Hf.
    assert (H1 : forall r1 s1, KeyJar.get use "" part s = (Ok r1, s1) ->
       (keys ← KeyJar.get use "" part; own ← KeyJar.get use "" "";
        mret (KeyJar.extend_with keys own)) s = (Raise KeyError, s1)).
    { intros r1 s1 Hrun. rewrite (bind_ok _ _ _ _ _ Hrun).
      by rewrite (bind_raise _ _ _ _ _ (Hgen use r1 s1 Hrun)). }
    split; [done|].
    destruct (KeyJar.get use "" part s) as [[r1|e] s1] eqn:Hrun.
    - by rewrite (H1 r1 s1 eq_refl).
    - by rewrite (bind_raise _ _ _ _ _ Hrun). }
  destruct (Hx "ver" KeyJar.get_verify_key (fun _ _ => eq_refl)) as [Hv1 Hv2].
  destruct (Hx "dec" KeyJar.get_decrypt_key (fun _ _ => eq_refl)) as [Hd1 Hd2].
  split; [exact Hv2|]. split; [exact Hd2|]. exact Hv1.
Qed.
End OwnKeys.

(** ** The owner of a url *)

Lemma startswith_empty url : Str.startswith url "" = true.
Proof. by destruct url. Qed.

Lemma match_owner_in_spec owners url :
  match KeyJar.match_owner_in owners url with
  | Ok owner => owner ∈ owners ∧ Str.startswith url owner = true
  | Raise e =>
      e = Exception ∧
      forall owner, owner ∈ owners -> Str.startswith url owner = false
  end.
Proof.
  induction owners as [|o owners IH]; cbn.
  - split; [done|]. intros owner Hin. by apply elem_of_nil in Hin.
  - destruct (Str.startswith url o) eqn:Ho.
    + split; [apply list_elem_of_here|done].
    + destruct (KeyJar.match_owner_in owners url) as [owner|e].
      * destruct IH as [Hin Hp]. split; [by apply list_elem_of_further|done].
      * destruct IH as [-> Hall]. split; [done|].
        intros owner [->|Hin]%elem_of_cons; [done|by apply Hall].
Qed.

Lemma lists_issuers_elem s owners owner :
  KeyJar.lists_issuers s owners ->
  owner ∈ owners <-> is_Some (KeyJar.issuer_keys s !! owner).
Proof.
  unfold KeyJar.lists_issuers. intros ->.
  rewrite list_elem_of_fmap. split.
  - intros ([k v] & -> & Hin). apply elem_of_map_to_list in Hin. by eexists.
  - intros [v Hv]. exists (owner, v). split; [done|].
    by apply elem_of_map_to_list.
Qed.

(** X21: [match_owner], whatever the order in which the dictionary lists its
    keys: the owner returned is an issuer of the jar and a prefix of the
    url; [Exception] is raised when no issuer of the jar is a prefix of the
    url, and only then; so a jar with an entry for the empty issuer, its
    own keys, has an owner for every url. *)
Theorem match_owner_prefix (s : KeyJar.Sys) (owners : list string)
    (url : string) :
  KeyJar.lists_issuers s owners ->
  match KeyJar.match_owner_in owners url with
  | Ok owner =>
      is_Some (KeyJar.issuer_keys s !! owner) ∧
      Str.startswith url owner = true
  | Raise e =>
      e = Exception ∧
      KeyJar.issuer_keys s !! "" = None ∧
      forall owner, is_Some (KeyJar.issuer_keys s !! owner) ->
                    Str.startswith url owner = false
  end.
Proof.
  intros Hl. pose proof (match_owner_in_spec owners url) as Hspec.
  destruct (KeyJar.match_owner_in owners url) as [owner|e].
  - destruct Hspec as [Hin Hp]. split; [|done].
    by apply (lists_issuers_elem s owners owner Hl).
  - destruct Hspec as [-> Hall]. split; [done|].
    assert (Hall' : forall owner, is_Some (KeyJar.issuer_keys s !! owner) ->
                      Str.startswith url owner = false).
    { intros owner Hin. apply Hall.
      by apply (lists_issuers_elem s owners owner Hl). }
    split; [|done].
    destruct (KeyJar.issuer_keys s !! "") as [l|] eqn:Hown; [|done].
    specialize (Hall' "" ltac:(by rewrite Hown)).
    by rewrite startswith_empty in Hall'.
Qed.

(** ** Merging jars *)

(** X22: [update]: the list of every issuer of the other jar is appended to the
    list that the issuer has, which is the empty list for a new issuer; the
    other entries, the bundles and the world stay. *)
Theorem update_appends (s : KeyJar.Sys) (other : gmap string (list nat)) :
  exists d,
    KeyJar.update other s = (Ok tt, KeyJar.set_issuer_keys d s) ∧
    forall key,
      d !! key =
      match other !! key with
      | Some val => Some (default [] (KeyJar.issuer_keys s !! key) ++ val)
      | None => KeyJar.issuer_keys s !! key
      end.
Proof.
  eexists. split; [reflexivity|].
  apply (map_fold_weak_ind
           (fun (r : gmap string (list nat)) (m : gmap string (list nat)) =>
              forall key,
                r !! key =
                match m !! key with
                | Some val =>
                    Some (default [] (KeyJar.issuer_keys s !! key) ++ val)
                | None => KeyJar.issuer_keys s !! key
                end)).
  - intros key. by rewrite lookup_empty.
  - intros i x m r Hi IH key.
    destruct (decide (i = key)) as [->|Hne].
    + rewrite lookup_insert_eq. specialize (IH key). rewrite Hi in IH.
      rewrite IH. destruct (KeyJar.issuer_keys s !! key);
        by rewrite lookup_insert_eq.
    + rewrite lookup_insert_ne by done. rewrite <- IH.
      destruct (r !! i); by rewrite lookup_insert_ne.
Qed.

Section Registering.
Context `{External}.

(** ** Registering a source *)

Lemma init_remote_eq url verify_ssl :
  is_http url ->
  KeyJar.KeyBundle_of_source url verify_ssl = Ok (remote_bundle url verify_ssl).
Proof.
  intros Hu. unfold KeyJar.KeyBundle_of_source, KeyBundle.__init__.
  rewrite (http_not_file url Hu).
  replace (Str.startswith url "http://" || Str.startswith url "https://")
    with true by (destruct Hu as [-> | ->]; [done|by rewrite orb_true_r]).
  reflexivity.
Qed.

Lemma add_remote issuer url s :
  is_http url ->
  KeyJar.add issuer url s =
  (Ok (List.length (KeyJar.store s)),
   {| KeyJar.issuer_keys :=
        <[issuer := default [] (KeyJar.issuer_keys s !! issuer)
                    ++ [List.length (KeyJar.store s)]]>
          (KeyJar.issuer_keys s);
      KeyJar.store :=
        KeyJar.store s ++ [remote_bundle url (negb (local_host url))];
      KeyJar.world := KeyJar.world s |}).
Proof.
  intros Hu. rewrite add_runs. fold (local_host url).
  destruct (local_host url); cbn [negb]; by rewrite init_remote_eq.
Qed.

(** X23: [add] of a source that is no file: an "http://" or "https://" url, and
    the empty string, are accepted, and any other source raises [Exception]
    and leaves the jar as it is; nothing is fetched in either case. *)
Theorem add_by_scheme (s : KeyJar.Sys) (issuer url : string) :
  Str.startswith url "file://" = false ->
  KeyJar.world (snd (KeyJar.add issuer url s)) = KeyJar.world s ∧
  if Str.startswith url "http://" || Str.startswith url "https://"
     || String.eqb url ""
  then fst (KeyJar.add issuer url s) = Ok (List.length (KeyJar.store s))
  else KeyJar.add issuer url s = (Raise Exception, s).
Proof.
  intros Hf. rewrite add_runs.
  unfold KeyJar.KeyBundle_of_source, KeyBundle.__init__. rewrite Hf.
  destruct (Str.startswith url "http://" || Str.startswith url "https://");
    cbn [orb].
  - by destruct (Str.contains url "/localhost:"
                 || Str.contains url "/localhost/").
  - destruct (String.eqb url "");
      by destruct (Str.contains url "/localhost:"
                   || Str.contains url "/localhost/").
Qed.

Lemma http_not_empty url : is_http url -> url <> "".
Proof. by intros [Hu|Hu] ->. Qed.

Lemma get_world_single s use key_type issuer kc b :
  KeyJar.bundles_of issuer s = (Ok [kc], s) ->
  KeyJar.store s !! kc = Some b ->
  KeyJar.world (snd (KeyJar.get use key_type issuer s)) =
  snd (snd (KeyBundle._uptodate (b, KeyJar.world s))).
Proof.
  intros Hb Hs. unfold KeyJar.get. rewrite (bind_ok _ _ _ _ _ Hb).
  destruct (negb (String.eqb key_type "")).
  - unfold fold_each.
    unfold mbind at 1. unfold M_bind at 1.
    unfold mbind at 1. unfold M_bind at 1.
    unfold mbind at 1. unfold M_bind at 1.
    unfold KeyJar.at_bundle. rewrite Hs.
    rewrite <- (get_after_uptodate key_type).
    by destruct (KeyBundle.get key_type (b, KeyJar.world s)) as [[ks|e] bw].
  - unfold fold_each.
    unfold mbind at 1. unfold M_bind at 1.
    unfold mbind at 1. unfold M_bind at 1.
    unfold KeyJar.at_bundle. rewrite Hs.
    unfold KeyBundle.keys. unfold mbind at 1. unfold M_bind at 1.
    by destruct (KeyBundle._uptodate (b, KeyJar.world s)) as [[[]|e] bw].
Qed.

(** X24: [add] of an HTTP source fetches nothing; the first lookup of the
    issuer afterwards, in a jar that had no entry for the issuer, sends one
    request: to the url, without an entity tag, and verifying certificates
    unless the url is one of the local host. *)
Theorem add_then_get_fetches (s : KeyJar.Sys)
    (issuer url use key_type : string) :
  is_http url ->
  KeyJar.issuer_keys s !! issuer = None ->
  (0 < clock (KeyJar.world s))%Z ->
  let s1 := snd (KeyJar.add issuer url s) in
  KeyJar.world s1 = KeyJar.world s ∧
  sent (KeyJar.world (snd (KeyJar.get use key_type issuer s1))) =
  sent (KeyJar.world s) ++
    [{| req_url := Some url; req_verify := negb (local_host url);
        req_if_none_match := None |}].
Proof.
  intros Hu Hi Hc s1. subst s1. rewrite (add_remote issuer url s Hu).
  cbn [snd]. split; [done|].
  rewrite (get_world_single _ use key_type issuer (List.length (KeyJar.store s))
             (remote_bundle url (negb (local_host url)))).
  - rewrite (uptodate_stale_world _ _ url);
      [done|done|done|by apply http_not_empty|done].
  - apply bundles_of_hit. cbn. by rewrite Hi, lookup_insert_eq.
  - cbn. by apply list_lookup_middle.
Qed.

(** ** Loading the keys of a provider *)

Lemma load_keys_runs pcr issuer replace s :
  KeyJar.load_keys pcr issuer replace s =
  let s0 := KeyJar.set_issuer_keys
              (<[issuer := kept issuer replace s]> (KeyJar.issuer_keys s)) s in
  match pcr !! "jwks_uri" with
  | None => (Ok tt, s0)
  | Some url =>
      match KeyJar.add issuer url s0 with
      | (Ok _, s1) => (Ok tt, s1)
      | (Raise KeyError, s1) => (Ok tt, s1)
      | (Raise e, s1) => (Raise e, s1)
      end
  end.
Proof.
  unfold KeyJar.load_keys.
  rewrite (bind_ok (gets KeyJar.issuer_keys) _ s _ s eq_refl).
  set (s0 := KeyJar.set_issuer_keys
               (<[issuer := kept issuer replace s]> (KeyJar.issuer_keys s)) s).
  assert (Hreset :
    (if negb (bool_decide (issuer ∈ dom (KeyJar.issuer_keys s)))
     then KeyJar.setitem issuer []
     else if replace then KeyJar.setitem issuer [] else mret tt) s
    = (Ok tt, s0)).
  { subst s0. unfold kept.
    destruct (KeyJar.issuer_keys s !! issuer) as [l|] eqn:Hl.
    - rewrite bool_decide_true by (apply elem_of_dom; by eexists).
      cbn [negb]. destruct replace; [done|]. cbn.
      unfold mret, M_ret. f_equal. rewrite insert_id by done. by destruct s.
    - rewrite bool_decide_false by (by rewrite not_elem_of_dom).
      cbn [negb]. by destruct replace. }
  rewrite (bind_ok _ _ _ _ _ Hreset). cbv zeta.
  unfold except_KeyError.
  destruct (pcr !! "jwks_uri") as [url|].
  - unfold mbind at 1. unfold M_bind at 1. unfold lift at 1. cbv iota beta.
    unfold mbind at 1. unfold M_bind at 1.
    destruct (KeyJar.add issuer url s0) as [[kc|e] s1]; [done|].
    by destruct e.
  - reflexivity.
Qed.

(** X25: [load_keys] with an HTTP url under "jwks_uri": one remote bundle for
    the url is made and put last in the issuer's list, after the bundles
    that were there, or alone when [replace] is set; nothing is fetched. *)
Theorem load_keys_registers (s : KeyJar.Sys) (pcr : gmap string string)
    (issuer url : string) (replace : bool) :
  pcr !! "jwks_uri" = Some url -> is_http url ->
  exists s',
    KeyJar.load_keys pcr issuer replace s = (Ok tt, s') ∧
    KeyJar.issuer_keys s' !! issuer =
      Some (kept issuer replace s ++ [List.length (KeyJar.store s)]) ∧
    (forall other, other <> issuer ->
       KeyJar.issuer_keys s' !! other = KeyJar.issuer_keys s !! other) ∧
    KeyJar.store s' =
      KeyJar.store s ++ [remote_bundle url (negb (local_host url))] ∧
    KeyJar.world s' = KeyJar.world s.
Proof.
  intros Hp Hu. rewrite load_keys_runs, Hp. cbv zeta.
  rewrite (add_remote issuer url _ Hu). eexists. split; [reflexivity|].
  cbn. rewrite !lookup_insert_eq. split; [done|]. split; [|done].
  intros other Hne. by rewrite !lookup_insert_ne.
Qed.

(** X26: [load_keys] resets the entry of the issuer before it adds: when the
    provider information has no "jwks_uri", and when the bundle cannot be
    made, the issuer is left with the bundles it had, or with none when
    [replace] is set.  A [KeyError] does not come out of [load_keys], and
    the issuer has an entry afterwards in every case. *)
Theorem load_keys_resets_first (s : KeyJar.Sys) (pcr : gmap string string)
    (issuer : string) (replace : bool) :
  let out := KeyJar.load_keys pcr issuer replace s in
  let s0 := KeyJar.set_issuer_keys
              (<[issuer := kept issuer replace s]> (KeyJar.issuer_keys s)) s in
  fst out <> Raise KeyError ∧
  KeyJar.__contains__ issuer (snd out) = true ∧
  (pcr !! "jwks_uri" = None -> out = (Ok tt, s0)) ∧
  (is_ok (fst out) = false -> snd out = s0).
Proof.
  intros out s0. subst out. rewrite load_keys_runs. cbv zeta. fold s0.
  assert (Hin : KeyJar.__contains__ issuer s0 = true).
  { unfold KeyJar.__contains__. apply bool_decide_eq_true. subst s0. cbn.
    rewrite dom_insert_L. apply elem_of_union_l, elem_of_singleton.
    reflexivity. }
  destruct (pcr !! "jwks_uri") as [url|]; [|done].
  rewrite add_runs.
  destruct (if Str.contains url "/localhost:" || Str.contains url "/localhost/"
            then KeyJar.KeyBundle_of_source url false
            else KeyJar.KeyBundle_of_source url true) as [kb|e].
  - cbn. split; [done|]. split; [|done].
    unfold KeyJar.__contains__. apply bool_decide_eq_true. cbn.
    rewrite dom_insert_L. apply elem_of_union_l, elem_of_singleton.
    reflexivity.
  - destruct e; cbn; done.
Qed.
End Registering.

(** ** Removing keys from several bundles *)

(** X27: [remove_key] walks the issuer's list while it takes bundles out of it:
    when the first of two bundles is emptied and taken out, the second one
    moves to its place and is not visited; its keys stay, whatever they
    are. *)
Theorem remove_key_skips_next (s : KeyJar.Sys) (issuer key_type : string)
    (key : Val) (kc1 kc2 : nat) (b1 b2 : KeyBundle.t) :
  kc1 <> kc2 ->
  KeyJar.issuer_keys s !! issuer = Some [kc1; kc2] ->
  KeyJar.store s !! kc1 = Some b1 ->
  KeyJar.store s !! kc2 = Some b2 ->
  Forall (removed_by key_type key) (KeyBundle._keys b1) ->
  exists s',
    KeyJar.remove_key issuer key_type key s = (Ok tt, s') ∧
    KeyJar.issuer_keys s' !! issuer = Some [kc2] ∧
    KeyJar.store s' !! kc1 = Some (KeyBundle.set__keys [] b1) ∧
    KeyJar.store s' !! kc2 = Some b2.
Proof.
  intros Hne Hi Hb1 Hb2 Hall. eexists. split.
  - unfold KeyJar.remove_key, KeyJar.getitem. run. rewrite Hi. cbn.
    unfold KeyJar.getitem, KeyJar.at_bundle, KeyJar.setitem. run.
    rewrite Hi. cbn.
    rewrite Hb1. rewrite (remove_all _ _ _ Hall). cbn.
    rewrite list_lookup_insert_eq by (by eapply lookup_lt_Some). cbn.
    rewrite bool_decide_true by done.
    rewrite lookup_insert_eq. cbn. reflexivity.
  - cbn. rewrite list_insert_insert_eq.
    rewrite list_lookup_insert_eq by (by eapply lookup_lt_Some).
    rewrite lookup_insert_eq.
    rewrite list_lookup_insert_ne by done. done.
Qed.

(** ** The properties of jars, on examples *)

Lemma get_grouped_witness :
  let E := Ex.offline in
  let s := Ex.jar {[ "https://idp.example" := [0; 1] ]}
             [Ex.in_memory [Ex.secret; Ex.rsa];
              Ex.in_memory [Ex.hmac "other" "sig" "k2"]] in
  exists res,
    KeyJar.get "ver" "" "https://idp.example" s = (Ok res, s) ∧
    forall kind,
      res !! kind =
      some_list (pick (KeyJar.key_use "ver") kind (keys_in s [0; 1])).
Proof.
  intros E s. apply (@get_grouped E s "ver" "https://idp.example" [0; 1]).
  - reflexivity.
  - repeat constructor; eexists; (split; [reflexivity|by left]).
Defined.

Lemma get_typed_witness :
  let E := Ex.offline in
  let s := Ex.jar {[ "https://idp.example" := [0; 1] ]}
             [Ex.in_memory [Ex.secret; Ex.rsa];
              Ex.in_memory [Ex.hmac "other" "sig" "k2"]] in
  KeyJar.get "ver" "HMAC" "https://idp.example" s =
  (Ok {[ "HMAC" :=
           with_use (KeyJar.key_use "ver")
             (of_kind "HMAC" (keys_in s [0; 1])) ]}, s).
Proof.
  intros E s.
  apply (@get_typed E s "ver" "HMAC" "https://idp.example" [0; 1]).
  - discriminate.
  - reflexivity.
  - repeat constructor; eexists; (split; [reflexivity|by left]).
Defined.

Lemma x_keys_concatenates_witness :
  let E := Ex.offline in
  let s := Ex.jar {[ "" := [0]; "https://idp.example" := [1] ]}
             [Ex.in_memory [Ex.secret];
              Ex.in_memory [Ex.hmac "other" "sig" "k2"; Ex.rsa]] in
  (exists res,
     KeyJar.verify_keys "https://idp.example" s = (Ok res, s) ∧
     forall kind,
       res !! kind =
       some_list (pick "sig" kind (keys_in s [1])
                  ++ pick "sig" kind (keys_in s [0]))) ∧
  (exists res,
     KeyJar.decrypt_keys "https://idp.example" s = (Ok res, s) ∧
     forall kind,
       res !! kind =
       some_list (pick "enc" kind (keys_in s [1])
                  ++ pick "enc" kind (keys_in s [0]))).
Proof.
  intros E s. apply (@x_keys_concatenates E s "https://idp.example" [1] [0]).
  - reflexivity.
  - reflexivity.
  - repeat constructor; eexists; (split; [reflexivity|by left]).
  - repeat constructor; eexists; (split; [reflexivity|by left]).
Defined.

Lemma x_keys_needs_own_entry_witness :
  let E := Ex.offline in
  let s := Ex.jar {[ "https://idp.example" := [0] ]}
             [Ex.in_memory [Ex.secret]] in
  is_ok (fst (KeyJar.verify_keys "https://idp.example" s)) = false ∧
  is_ok (fst (KeyJar.decrypt_keys "https://idp.example" s)) = false ∧
  forall r1 s1,
    KeyJar.get "ver" "" "https://idp.example" s = (Ok r1, s1) ->
    KeyJar.verify_keys "https://idp.example" s = (Raise KeyError, s1).
Proof.
  intros E s. apply (@x_keys_needs_own_entry E s "https://idp.example").
  reflexivity.
Defined.

Lemma match_owner_prefix_witness :
  let s := Ex.jar {[ "https://idp.example" := [0] ]}
             [Ex.in_memory [Ex.secret]] in
  is_Some (KeyJar.issuer_keys s !! "https://idp.example") ∧
  Str.startswith "https://idp.example/jwks" "https://idp.example" = true.
Proof.
  intros s.
  apply (match_owner_prefix s ["https://idp.example"]
           "https://idp.example/jwks").
  unfold KeyJar.lists_issuers, s, Ex.jar. cbn.
  by rewrite map_to_list_singleton.
Defined.

Lemma add_by_scheme_witness :
  let E := Ex.offline in
  let s := Ex.jar {[ "https://idp.example" := [0] ]}
             [Ex.in_memory [Ex.secret]] in
  KeyJar.world
    (snd (KeyJar.add "https://idp.example" "ftp://idp.example/jwks" s)) =
  KeyJar.world s ∧
  KeyJar.add "https://idp.example" "ftp://idp.example/jwks" s =
  (Raise Exception, s).
Proof.
  intros E s.
  apply (@add_by_scheme E s "https://idp.example" "ftp://idp.example/jwks").
  reflexivity.
Defined.

Lemma add_then_get_fetches_witness :
  let E := Ex.offline in
  let s := KeyJar.__init__ (Ex.at_time 10) in
  let s1 := snd (KeyJar.add "https://idp.example"
                   "https://localhost:8080/jwks" s) in
  KeyJar.world s1 = KeyJar.world s ∧
  sent (KeyJar.world (snd (KeyJar.get "ver" "rsa" "https://idp.example" s1))) =
  sent (KeyJar.world s) ++
    [{| req_url := Some "https://localhost:8080/jwks";
        req_verify := negb (local_host "https://localhost:8080/jwks");
        req_if_none_match := None |}].
Proof.
  intros E s.
  apply (@add_then_get_fetches E s "https://idp.example"
           "https://localhost:8080/jwks" "ver" "rsa").
  - by right.
  - reflexivity.
  - reflexivity.
Defined.

Lemma load_keys_registers_witness :
  let E := Ex.offline in
  let s := Ex.jar {[ "https://idp.example" := [0] ]}
             [Ex.in_memory [Ex.secret]] in
  let pcr : gmap string string :=
    {[ "jwks_uri" := "https://idp.example/jwks" ]} in
  exists s',
    KeyJar.load_keys pcr "https://idp.example" true s = (Ok tt, s') ∧
    KeyJar.issuer_keys s' !! "https://idp.example" =
      Some (kept "https://idp.example" true s ++ [List.length (KeyJar.store s)]) ∧
    (forall other, other <> "https://idp.example" ->
       KeyJar.issuer_keys s' !! other = KeyJar.issuer_keys s !! other) ∧
    KeyJar.store s' =
      KeyJar.store s ++
        [remote_bundle "https://idp.example/jwks"
           (negb (local_host "https://idp.example/jwks"))] ∧
    KeyJar.world s' = KeyJar.world s.
Proof.
  intros E s pcr.
  apply (@load_keys_registers E s pcr "https://idp.example"
           "https://idp.example/jwks" true).
  - reflexivity.
  - by right.
Defined.

Lemma remove_key_skips_next_witness :
  let s := Ex.jar {[ "https://idp.example" := [0; 1] ]}
             [Ex.in_memory [Ex.secret]; Ex.in_memory [Ex.secret]] in
  exists s',
    KeyJar.remove_key "https://idp.example" "hmac" (VStr "secret") s
    = (Ok tt, s') ∧
    KeyJar.issuer_keys s' !! "https://idp.example" = Some [1] ∧
    KeyJar.store s' !! 0 =
      Some (KeyBundle.set__keys [] (Ex.in_memory [Ex.secret])) ∧
    KeyJar.store s' !! 1 = Some (Ex.in_memory [Ex.secret]).
Proof.
  intros s.
  apply (remove_key_skips_next s "https://idp.example" "hmac" (VStr "secret")
           0 1 (Ex.in_memory [Ex.secret]) (Ex.in_memory [Ex.secret]));
    [discriminate|reflexivity|reflexivity|reflexivity|].
  repeat constructor.
Defined.
